(** * Kemp Brdy bullet engine: a shallow embedding of [kemp_brdy_engine.py]

    The engine picks a move for a chess position by (1) consulting an
    opening book, (2) scoring every legal move with a weighted sum of
    features evaluated one ply deep, (3) ranking, (4) optionally
    shuffling the five best, (5) falling back to a random legal move
    when the wall clock budget is exceeded.

    The chess rules ([python-chess]), the random source ([random]) and
    the wall clock ([time]) are external to the repository.  The rules
    library is an interface ([Rules]); the random source and the clock
    are tapes read in order, so that every run of the Python program
    corresponds to one choice of tapes.

    Python floats are modelled by exact rationals ([Q]); Python ints by
    [Z]; Python exceptions by the [Raise] outcome of a state and error
    monad whose state holds the board, the random tape and the clock. *)

From Stdlib Require Import ZArith QArith Lia Lqa Permutation Sorted Ascii String.
From stdpp Require Import base list gmap strings.

Open Scope Z_scope.
Open Scope Q_scope.

(** ** Values of [python-chess] used by the engine *)

(** [chess.WHITE = True], [chess.BLACK = False]. *)
Inductive Color := WHITE | BLACK.

(** [chess.PAWN .. chess.KING] (the integers 1..6). *)
Inductive PieceType := PAWN | KNIGHT | BISHOP | ROOK | QUEEN | KING.

Record Piece := mkPiece { piece_type : PieceType; color : Color }.

(** Squares are the integers 0..63, [A1 = 0], [H8 = 63]. *)
Definition Square := nat.

Record Move := mkMove {
  from_square : Square;
  to_square : Square;
  promotion : option PieceType;
  move_drop : option PieceType }.

#[global] Instance Color_eq_dec : EqDecision Color.
Proof. solve_decision. Defined.

#[global] Instance PieceType_eq_dec : EqDecision PieceType.
Proof. solve_decision. Defined.

#[global] Instance Piece_eq_dec : EqDecision Piece.
Proof. solve_decision. Defined.

#[global] Instance Move_eq_dec : EqDecision Move.
Proof. solve_decision. Defined.

Definition opposite (c : Color) : Color :=
  match c with WHITE => BLACK | BLACK => WHITE end.

(** [chess.square_rank]: [square >> 3]. *)
Definition square_rank (sq : Square) : nat := Nat.shiftr sq 3.

(** [chess.square_file]: [square & 7]. *)
Definition square_file (sq : Square) : nat := Nat.land sq 7.

Definition A1 : Square := 0%nat.
Definition B1 : Square := 1%nat.
Definition C1 : Square := 2%nat.
Definition E1 : Square := 4%nat.
Definition F1 : Square := 5%nat.
Definition G1 : Square := 6%nat.
Definition D4 : Square := 27%nat.
Definition E4 : Square := 28%nat.
Definition D5 : Square := 35%nat.
Definition E5 : Square := 36%nat.
Definition B8 : Square := 57%nat.
Definition C8 : Square := 58%nat.
Definition E8 : Square := 60%nat.
Definition F8 : Square := 61%nat.
Definition G8 : Square := 62%nat.

(** [Move.__bool__]: a move is falsy exactly when it is the null move. *)
Definition move_bool (m : Move) : bool :=
  negb (Nat.eqb (from_square m) 0) || negb (Nat.eqb (to_square m) 0)
  || bool_decide (is_Some (promotion m)) || bool_decide (is_Some (move_drop m)).

(** The part of [chess.Board] the engine calls.  [parse_san] answers
    [None] where the library raises [ValueError] (illegal, ambiguous or
    malformed token).  [pop] is total: the library raises [IndexError]
    on an empty move stack, and the engine pops only after a push.
    [piece_map] lists the items of the dict the library returns. *)
Class Rules (Board : Type) := {
  turn : Board -> Color;
  move_stack : Board -> list Move;
  legal_moves : Board -> list Move;
  push : Board -> Move -> Board;
  pop : Board -> Board;
  is_check : Board -> bool;
  is_checkmate : Board -> bool;
  piece_at : Board -> Square -> option Piece;
  piece_map : Board -> list (Square * Piece);
  parse_san : Board -> string -> option Move }.

(** ** Python exceptions and the state and error monad *)

Inductive exn := KeyError (key : string) | IndexError | ValueError.

Inductive result (A : Type) := Ok (a : A) | Raise (e : exn).
Arguments Ok {A} a.
Arguments Raise {A} e.

Definition Py (S A : Type) : Type := S -> result A * S.

Definition ret {S A} (a : A) : Py S A := fun s => (Ok a, s).

Definition raise {S A} (e : exn) : Py S A := fun s => (Raise e, s).

Definition bind {S A B} (c : Py S A) (k : A -> Py S B) : Py S B :=
  fun s => match c s with
           | (Ok a, s1) => k a s1
           | (Raise e, s1) => (Raise e, s1)
           end.

Definition lift {S A} (r : result A) : Py S A := fun s => (r, s).

(** [try: body finally: fin].  The finaliser runs on every exit of the
    body; an exception of the body is raised again after it. *)
Definition try_finally {S A} (body : Py S A) (fin : Py S unit) : Py S A :=
  fun s => match body s with
           | (r, s1) => match fin s1 with
                        | (Ok _, s2) => (r, s2)
                        | (Raise e, s2) => (Raise e, s2)
                        end
           end.

Declare Scope py_scope.
Delimit Scope py_scope with py.
Notation "x <- c ;; k" := (bind c (fun x => k))
  (at level 100, c at next level, right associativity) : py_scope.
Notation "c ;;; k" := (bind c (fun _ => k))
  (at level 100, right associativity) : py_scope.
Open Scope py_scope.

(** Error monad without state, for the read-only scoring of one board. *)
Definition rbind {A B} (r : result A) (k : A -> result B) : result B :=
  match r with Ok a => k a | Raise e => Raise e end.
Notation "x <~ r ;; k" := (rbind r (fun x => k))
  (at level 100, r at next level, right associativity) : py_scope.

(** [d[k]] on a dict with string keys. *)
Definition getitem {V} (d : gmap string V) (k : string) : result V :=
  match d !! k with Some v => Ok v | None => Raise (KeyError k) end.

(** [seq[i]] on a list. *)
Definition index {A} (l : list A) (i : nat) : result A :=
  match l !! i with Some v => Ok v | None => Raise IndexError end.

(** ** The engine object *)

Record KempBrdyEngine := mkEngine {
  difficulty : Z;
  time_limit : Q;
  max_thinking_time : Q;
  opening_repertoire : gmap string (list (list string));
  tactical_weights : gmap string Q }.

Definition init_opening_repertoire : gmap string (list (list string)) :=
  <["white" := [ ["e3"; "e5"; "Bc4"; "Nc6"; "Qf3"; "Nf6"];
                 ["e4"; "e6"; "Nf3"; "d5"; "exd5"; "Qxd5"];
                 ["e3"; "e5"; "Bc4"; "d5"; "Bb3"; "Nf6"];
                 ["e3"; "g6"; "Bc4"; "Bg7"; "Qf3"; "e6"];
                 ["e3"; "d5"; "c4"; "e6"; "cxd5"; "exd5"] ] ]>
  (<["black" := [ ["e4"; "e6"; "Nf3"; "d5"; "exd5"; "Qxd5"];
                  ["e4"; "c5"; "Nf3"; "d6"; "d4"; "cxd4"];
                  ["e4"; "c6"; "d4"; "d5"; "exd5"; "cxd5"] ] ]> ∅).

Definition init_tactical_weights : gmap string Q :=
  <["check" := 0.8]> (<["checkmate" := 1.0]> (<["capture_queen" := 0.9]>
  (<["capture_bishop" := 0.7]> (<["capture_knight" := 0.7]>
  (<["castling" := 0.6]> (<["development" := 0.8]>
  (<["center_control" := 0.7]> (<["aggression" := 0.9]> ∅)))))))).

(** [KempBrdyEngine.__init__]. *)
Definition init (difficulty_level : Z) : KempBrdyEngine :=
  {| difficulty := difficulty_level;
     time_limit := 0.1;
     max_thinking_time := 0.5;
     opening_repertoire := init_opening_repertoire;
     tactical_weights := init_tactical_weights |}.

(** The value of the float literal [0.1] that [time_limit] holds in the
    program: the double nearest to one tenth, slightly above it. *)
Definition double_0_1 : Q := 3602879701896397 # 36028797018963968.

(** ** Ranking: [list.sort(reverse=True, key=lambda x: x[0])]

    Python's sort is stable, also with [reverse=True]: of two entries
    with equal scores the one that came first stays first. *)

Definition insert_desc {A} (x : Q * A) : list (Q * A) -> list (Q * A) :=
  fix go (l : list (Q * A)) : list (Q * A) :=
    match l with
    | [] => [x]
    | y :: r => if Qle_bool (fst y) (fst x) then x :: y :: r else y :: go r
    end.

Definition sort_desc {A} (l : list (Q * A)) : list (Q * A) :=
  foldr insert_desc [] l.

Section Engine.

Context {Board : Type} `{Rules Board}.

(** The state a call runs in: the caller's board (mutated in place by
    [push] and [pop]), the random tape and the clock tape. *)
Record World := mkWorld {
  board : Board;
  rng : nat -> N;
  clock : nat -> Q }.

Abbreviation PyW := (Py World).

(** A step from [w] to [w'] that only consumed random draws: the
    position and the clock are as before. *)
Definition only_draws (w w' : World) : Prop :=
  board w' = board w /\ clock w' = clock w.

Definition get_board : PyW Board := fun w => (Ok (board w), w).

(** [board.push(move)] *)
Definition board_push (move : Move) : PyW unit :=
  fun w => (Ok tt, {| board := push (board w) move; rng := rng w; clock := clock w |}).

(** [board.pop()] *)
Definition board_pop : PyW unit :=
  fun w => (Ok tt, {| board := pop (board w); rng := rng w; clock := clock w |}).

(** [time.time()]: the next reading of the clock tape. *)
Definition time_time : PyW Q :=
  fun w => (Ok (clock w 0%nat),
            {| board := board w; rng := rng w; clock := fun n => clock w (S n) |}).

(** The next raw draw of the random tape. *)
Definition next_raw : PyW N :=
  fun w => (Ok (rng w 0%nat),
            {| board := board w; rng := fun n => rng w (S n); clock := clock w |}).

(** [random._randbelow(n)]: a value in [0, n).  The engine calls it
    with [n > 0] only ([random.choice] tests for the empty sequence,
    [random.shuffle] asks for [i + 1]). *)
Definition randbelow (n : nat) : PyW nat :=
  r <- next_raw ;; ret (N.to_nat (r mod N.of_nat n)).

(** [random.random()]: a multiple of [2^-53] in [0, 1). *)
Definition random_random : PyW Q :=
  r <- next_raw ;; ret (Z.of_N (r mod 2 ^ 53) # 2 ^ 53).

(** [random.uniform(a, b)]: [a + (b - a) * random()]. *)
Definition random_uniform (a b : Q) : PyW Q :=
  u <- random_random ;; ret (a + (b - a) * u).

(** [random.choice(seq)]: [IndexError] on an empty sequence. *)
Definition random_choice {A} (seq : list A) : PyW A :=
  match seq with
  | [] => raise IndexError
  | _ => i <- randbelow (length seq) ;; lift (index seq i)
  end.

(** [x[i], x[j] = x[j], x[i]]: [IndexError] when an index is out of range. *)
Definition swap {A} (x : list A) (i j : nat) : result (list A) :=
  a <~ index x i ;;
  b <~ index x j ;;
  Ok (<[j := a]> (<[i := b]> x)).

(** [random.shuffle(x)]:
    [for i in reversed(range(1, len(x))): j = randbelow(i + 1); swap]. *)
Fixpoint shuffle_from {A} (i : nat) (x : list A) : PyW (list A) :=
  match i with
  | O => ret x
  | S i' =>
      j <- randbelow (S i) ;;
      x' <- lift (swap x i j) ;;
      shuffle_from i' x'
  end.

Definition random_shuffle {A} (x : list A) : PyW (list A) :=
  shuffle_from (length x - 1) x.

(** *** Feature helpers of the evaluator *)

(** [_get_piece_value].  The default of [values.get] is not reached:
    the six piece types are all keys of the dict. *)
Definition _get_piece_value (piece : Piece) : Z :=
  match piece_type piece with
  | PAWN => 1 | KNIGHT => 3 | BISHOP => 3 | ROOK => 5 | QUEEN => 9 | KING => 0
  end.

(** [_get_piece_type], with the same remark on the default. *)
Definition _get_piece_type (piece : Piece) : string :=
  match piece_type piece with
  | PAWN => "capture_pawn" | KNIGHT => "capture_knight"
  | BISHOP => "capture_bishop" | ROOK => "capture_rook"
  | QUEEN => "capture_queen" | KING => "capture_king"
  end.

Definition square_in (sq : Square) (l : list Square) : bool :=
  bool_decide (sq ∈ l).

(** [_is_development_move] *)
Definition _is_development_move (b : Board) (move : Move) : bool :=
  match piece_at b (from_square move) with
  | None => false
  | Some piece =>
      if bool_decide (piece_type piece ∈ [KNIGHT; BISHOP]) then
        if bool_decide (color piece = WHITE) && square_in (from_square move) [B1; C1; F1; G1]
        then true
        else if bool_decide (color piece = BLACK) && square_in (from_square move) [B8; C8; F8; G8]
        then true
        else false
      else false
  end.

(** [_controls_center] *)
Definition _controls_center (square : Square) : bool :=
  square_in square [D4; E4; D5; E5].

(** [_is_aggressive_move] *)
Definition _is_aggressive_move (b : Board) (move : Move) : bool :=
  if bool_decide (turn b = WHITE)
  then Nat.ltb (square_rank (from_square move)) (square_rank (to_square move))
  else Nat.ltb (square_rank (to_square move)) (square_rank (from_square move)).

(** [_evaluate_material]: the loop over [board.piece_map().items()]. *)
Fixpoint material_loop (items : list (Square * Piece)) (score : Z) : Z :=
  match items with
  | [] => score
  | (_, piece) :: rest =>
      let value := _get_piece_value piece in
      material_loop rest
        (if bool_decide (color piece = WHITE) then score + value else score - value)%Z
  end.

Definition _evaluate_material (b : Board) : Z :=
  material_loop (piece_map b) 0%Z.

(** [_evaluate_position] *)
Definition _evaluate_position (b : Board) : Q :=
  let score := 0 in
  let score := if negb (is_check b) then score + 10 else score in
  let legal := length (legal_moves b) in
  score + inject_Z (Z.of_nat legal) * 0.5.

(** *** The evaluator, [_evaluate_move]

    Each block of the [try] body that adds to [score] is one definition
    giving the amount added; all of them read the board after
    [board.push(move)]. *)

(** [if board.is_check(): score += tactical_weights['check'] * 50] *)
Definition check_bonus (self : KempBrdyEngine) (b : Board) : result Q :=
  if is_check b
  then w <~ getitem (tactical_weights self) "check" ;; Ok (w * 50)
  else Ok 0.

(** "Piece capture analysis": [captured_piece = board.piece_at(move.to_square)]
    and the two ways of scoring it. *)
Definition capture_bonus (self : KempBrdyEngine) (b : Board) (move : Move) : result Q :=
  match piece_at b (to_square move) with
  | Some captured_piece =>
      let capture_value := _get_piece_value captured_piece in
      let capture_type := _get_piece_type captured_piece in
      match tactical_weights self !! capture_type with
      | Some w => Ok (w * inject_Z capture_value * 10)
      | None => Ok (inject_Z capture_value * 5)
      end
  | None => Ok 0
  end.

(** "Development bonus" *)
Definition development_bonus (self : KempBrdyEngine) (b : Board) (move : Move) : result Q :=
  if _is_development_move b move
  then w <~ getitem (tactical_weights self) "development" ;; Ok (w * 15)
  else Ok 0.

(** "Center control bonus" *)
Definition center_bonus (self : KempBrdyEngine) (move : Move) : result Q :=
  if _controls_center (to_square move)
  then w <~ getitem (tactical_weights self) "center_control" ;; Ok (w * 10)
  else Ok 0.

(** "Castling bonus" *)
Definition castling_bonus (self : KempBrdyEngine) (move : Move) : result Q :=
  if square_in (from_square move) [E1; E8] && square_in (to_square move) [G1; C1; G8; C8]
  then w <~ getitem (tactical_weights self) "castling" ;; Ok (w * 20)
  else Ok 0.

(** "Aggression bonus" *)
Definition aggression_bonus (self : KempBrdyEngine) (b : Board) (move : Move) : result Q :=
  if _is_aggressive_move b move
  then w <~ getitem (tactical_weights self) "aggression" ;; Ok (w * 12)
  else Ok 0.

(** "Queen activity bonus" *)
Definition queen_bonus (b : Board) (move : Move) : Q :=
  match piece_at b (from_square move) with
  | Some piece =>
      if bool_decide (piece_type piece = QUEEN)
      then 8 + (if _controls_center (to_square move) then 5 else 0)
      else 0
  | None => 0
  end.

(** The body of the [try] block, run on the board after the push.
    [inl v]: the [return v] of the checkmate branch; [inr score]: the
    body fell through with that [score]. *)
Definition score_body (self : KempBrdyEngine) (b : Board) (move : Move) : result (Q + Q) :=
  if is_checkmate b
  then w <~ getitem (tactical_weights self) "checkmate" ;; Ok (inl (1000 + w * 100))
  else
    let score := 0 in
    chk <~ check_bonus self b ;;
    let score := score + chk in
    cap <~ capture_bonus self b move ;;
    let score := score + cap in
    dev <~ development_bonus self b move ;;
    let score := score + dev in
    cen <~ center_bonus self move ;;
    let score := score + cen in
    cas <~ castling_bonus self move ;;
    let score := score + cas in
    agg <~ aggression_bonus self b move ;;
    let score := score + agg in
    let score := score + queen_bonus b move in
    let score := score + inject_Z (_evaluate_material b) in
    let score := score + _evaluate_position b in
    Ok (inr score).

Definition _evaluate_move (self : KempBrdyEngine) (move : Move) : PyW Q :=
  board_push move ;;;
  r <- try_finally (b <- get_board ;; lift (score_body self b move)) board_pop ;;
  match r with
  | inl v => ret v
  | inr score =>
      u <- random_uniform (-5) 5 ;;
      ret (score + u * inject_Z (11 - difficulty self))
  end.

(** *** The opening book, [_get_opening_move] *)

Definition _get_opening_move (self : KempBrdyEngine) : PyW (option Move) :=
  b <- get_board ;;
  let move_count := length (move_stack b) in
  if (6 <? move_count)%nat then ret None
  else
    let is_white := bool_decide (turn b = WHITE) in
    openings <- lift (if is_white
                      then getitem (opening_repertoire self) "white"
                      else getitem (opening_repertoire self) "black") ;;
    chosen_opening <- random_choice openings ;;
    if (move_count <? length chosen_opening)%nat
    then
      expected_move_san <- lift (index chosen_opening move_count) ;;
      match parse_san b expected_move_san with
      | Some m => ret (Some m)
      | None => ret None
      end
    else ret None.

(** *** Randomisation, [_add_randomness] *)

Definition _add_randomness (self : KempBrdyEngine) (scored_moves : list (Q * Move))
  : PyW (list (Q * Move)) :=
  if (9 <=? difficulty self)%Z then ret scored_moves
  else
    let random_factor := inject_Z (10 - difficulty self) / 10 in
    let top_moves := take (min 5 (length scored_moves)) scored_moves in
    top_moves <- random_shuffle top_moves ;;
    if (5 <? length scored_moves)%nat
    then ret (top_moves ++ drop 5 scored_moves)
    else ret top_moves.

(** *** Selection, [get_move] *)

(** [for move in legal_moves: scored_moves.append((score, move))] *)
Fixpoint score_moves (self : KempBrdyEngine) (moves : list Move)
  (scored_moves : list (Q * Move)) : PyW (list (Q * Move)) :=
  match moves with
  | [] => ret scored_moves
  | move :: rest =>
      score <- _evaluate_move self move ;;
      score_moves self rest (scored_moves ++ [(score, move)])
  end.

(** Truth value of an [Optional[chess.Move]]. *)
Definition truthy (m : option Move) : bool :=
  match m with Some mv => move_bool mv | None => false end.

(** "Add randomness based on difficulty": the gate around the call of
    [_add_randomness] in [get_move]. *)
Definition randomize_step (self : KempBrdyEngine) (scored_moves : list (Q * Move))
  : PyW (list (Q * Move)) :=
  if (difficulty self <? 7)%Z
  then _add_randomness self scored_moves
  else ret scored_moves.

Definition get_move (self : KempBrdyEngine) : PyW (option Move) :=
  start_time <- time_time ;;
  opening_move <- _get_opening_move self ;;
  if truthy opening_move then ret opening_move
  else
    b <- get_board ;;
    let legal := legal_moves b in
    match legal with
    | [] => ret None
    | _ =>
        scored_moves <- score_moves self legal [] ;;
        let scored_moves := sort_desc scored_moves in
        scored_moves <- randomize_step self scored_moves ;;
        best <- lift (index scored_moves 0) ;;
        let best_move := snd best in
        now <- time_time ;;
        if negb (Qle_bool (now - start_time) (time_limit self))
        then m <- random_choice legal ;; ret (Some m)
        else ret (Some best_move)
    end.

(** *** Reference formulations

    The specification's wording of two steps, to compare the code with. *)

(** Material of the pieces of one colour. *)
Fixpoint side_material (c : Color) (items : list (Square * Piece)) : Z :=
  match items with
  | [] => 0%Z
  | (_, piece) :: rest =>
      ((if bool_decide (color piece = c) then _get_piece_value piece else 0)
       + side_material c rest)%Z
  end.

(** Material balance relative to the side that made the move: its own
    pieces count positively, the opponent's negatively. *)
Definition mover_relative_material (mover : Color) (items : list (Square * Piece)) : Z :=
  (side_material mover items - side_material (opposite mover) items)%Z.

(** The Randomize step on its own: shuffle the first five entries of the
    ranking and append the remainder unchanged. *)
Definition shuffle_top5 (scored_moves : list (Q * Move)) : PyW (list (Q * Move)) :=
  top_moves <- random_shuffle (take 5 scored_moves) ;;
  ret (top_moves ++ drop 5 scored_moves).

End Engine.

(** ** A reduced rules engine

    A small executable instance of [Rules], used to run the engine on
    concrete positions: standard piece movement, captures, promotion,
    check and checkmate.  Castling and en passant are not generated. *)

Module MiniChess.

Record MBoard := mkBoard {
  pieces : list (Square * Piece);
  side : Color;
  history : list (list (Square * Piece) * Move) }.

Definition file_of (sq : Square) : Z := Z.of_nat (square_file sq).
Definition rank_of (sq : Square) : Z := Z.of_nat (square_rank sq).

Definition on_board (f r : Z) : bool :=
  (0 <=? f)%Z && (f <? 8)%Z && (0 <=? r)%Z && (r <? 8)%Z.

Definition square_of (f r : Z) : Square := Z.to_nat (r * 8 + f).

Definition lookup_piece (ps : list (Square * Piece)) (sq : Square) : option Piece :=
  (fun e => snd (snd e)) <$> list_find (fun e => fst e = sq) ps.

(** Squares reached by single steps. *)
Definition steps (sq : Square) (offsets : list (Z * Z)) : list Square :=
  omap (fun d => let f := (file_of sq + fst d)%Z in
                 let r := (rank_of sq + snd d)%Z in
                 if on_board f r then Some (square_of f r) else None) offsets.

(** Squares seen along one ray, up to and including the first blocker. *)
Fixpoint ray (ps : list (Square * Piece)) (f r df dr : Z) (fuel : nat) : list Square :=
  match fuel with
  | O => []
  | S fuel' =>
      let f' := (f + df)%Z in
      let r' := (r + dr)%Z in
      if on_board f' r' then
        let sq := square_of f' r' in
        match lookup_piece ps sq with
        | Some _ => [sq]
        | None => sq :: ray ps f' r' df dr fuel'
        end
      else []
  end.

Definition rays (ps : list (Square * Piece)) (sq : Square) (dirs : list (Z * Z)) : list Square :=
  concat (map (fun d => ray ps (file_of sq) (rank_of sq) (fst d) (snd d) 7) dirs).

Definition knight_offsets : list (Z * Z) :=
  [(1, 2); (2, 1); (2, -1); (1, -2); (-1, -2); (-2, -1); (-2, 1); (-1, 2)]%Z.
Definition king_offsets : list (Z * Z) :=
  [(1, 0); (1, 1); (0, 1); (-1, 1); (-1, 0); (-1, -1); (0, -1); (1, -1)]%Z.
Definition rook_dirs : list (Z * Z) := [(1, 0); (0, 1); (-1, 0); (0, -1)]%Z.
Definition bishop_dirs : list (Z * Z) := [(1, 1); (-1, 1); (-1, -1); (1, -1)]%Z.

Definition forward (c : Color) : Z := match c with WHITE => 1 | BLACK => -1 end.

(** Squares a piece attacks. *)
Definition attacks (ps : list (Square * Piece)) (sq : Square) (p : Piece) : list Square :=
  match piece_type p with
  | PAWN => steps sq [(1, forward (color p)); (-1, forward (color p))]%Z
  | KNIGHT => steps sq knight_offsets
  | BISHOP => rays ps sq bishop_dirs
  | ROOK => rays ps sq rook_dirs
  | QUEEN => rays ps sq (rook_dirs ++ bishop_dirs)
  | KING => steps sq king_offsets
  end.

Definition attacked_by (ps : list (Square * Piece)) (c : Color) (sq : Square) : bool :=
  existsb (fun e => bool_decide (color (snd e) = c)
                    && bool_decide (sq ∈ attacks ps (fst e) (snd e))) ps.

Definition in_check (ps : list (Square * Piece)) (c : Color) : bool :=
  existsb (fun e => bool_decide (snd e = mkPiece KING c)
                    && attacked_by ps (opposite c) (fst e)) ps.

Definition occupied_by (ps : list (Square * Piece)) (c : Color) (sq : Square) : bool :=
  match lookup_piece ps sq with
  | Some p => bool_decide (color p = c)
  | None => false
  end.

Definition is_empty (ps : list (Square * Piece)) (sq : Square) : bool :=
  bool_decide (lookup_piece ps sq = None).

Definition pawn_targets (ps : list (Square * Piece)) (sq : Square) (c : Color) : list Square :=
  let one := steps sq [(0, forward c)]%Z in
  let two := if bool_decide (rank_of sq = match c with WHITE => 1 | BLACK => 6 end)%Z
             then steps sq [(0, 2 * forward c)]%Z else [] in
  let pushes := match one with
                | [s1] => if is_empty ps s1
                          then s1 :: filter (fun s => is_empty ps s = true) two
                          else []
                | _ => []
                end in
  pushes ++ filter (fun s => occupied_by ps (opposite c) s = true) (attacks ps sq (mkPiece PAWN c)).

Definition targets (ps : list (Square * Piece)) (sq : Square) (p : Piece) : list Square :=
  match piece_type p with
  | PAWN => pawn_targets ps sq (color p)
  | _ => filter (fun s => occupied_by ps (color p) s = false) (attacks ps sq p)
  end.

Definition moves_of (ps : list (Square * Piece)) (sq : Square) (p : Piece) : list Move :=
  concat (map (fun t =>
    if bool_decide (piece_type p = PAWN)
       && bool_decide (rank_of t = match color p with WHITE => 7 | BLACK => 0 end)%Z
    then map (fun pt => mkMove sq t (Some pt) None) [QUEEN; ROOK; BISHOP; KNIGHT]
    else [mkMove sq t None None]) (targets ps sq p)).

Definition pseudo_legal (b : MBoard) : list Move :=
  concat (map (fun e => if bool_decide (color (snd e) = side b)
                        then moves_of (pieces b) (fst e) (snd e) else []) (pieces b)).

Definition m_push (b : MBoard) (m : Move) : MBoard :=
  let ps := pieces b in
  let ps' := match lookup_piece ps (from_square m) with
             | Some p =>
                 let moved := match promotion m with
                              | Some pt => mkPiece pt (color p)
                              | None => p
                              end in
                 filter (fun e => fst e ≠ from_square m ∧ fst e ≠ to_square m) ps
                   ++ [(to_square m, moved)]
             | None => ps
             end in
  {| pieces := ps'; side := opposite (side b); history := (ps, m) :: history b |}.

(** On an empty history the board is left as it is. *)
Definition m_pop (b : MBoard) : MBoard :=
  match history b with
  | (ps, _) :: h => {| pieces := ps; side := opposite (side b); history := h |}
  | [] => b
  end.

Definition m_legal_moves (b : MBoard) : list Move :=
  filter (fun m => in_check (pieces (m_push b m)) (side b) = false) (pseudo_legal b).

Definition m_is_check (b : MBoard) : bool := in_check (pieces b) (side b).

Definition m_is_checkmate (b : MBoard) : bool :=
  m_is_check b && bool_decide (m_legal_moves b = []).

(** A decoder for the SAN tokens of the repertoire: an optional piece
    letter, an optional file of origin, [x], and the destination. *)
Definition piece_of_letter (c : ascii) : option PieceType :=
  if bool_decide (c = "N"%char) then Some KNIGHT
  else if bool_decide (c = "B"%char) then Some BISHOP
  else if bool_decide (c = "R"%char) then Some ROOK
  else if bool_decide (c = "Q"%char) then Some QUEEN
  else if bool_decide (c = "K"%char) then Some KING
  else None.

Definition coord_of (base : nat) (c : ascii) : option Z :=
  let n := nat_of_ascii c in
  if (base <=? n)%nat && (n <? base + 8)%nat then Some (Z.of_nat (n - base)) else None.

Definition san_matches (b : MBoard) (pt : PieceType) (hint : list ascii) (dest : Square)
  (m : Move) : bool :=
  bool_decide (to_square m = dest)
  && bool_decide (piece_type <$> lookup_piece (pieces b) (from_square m) = Some pt)
  && match hint with
     | [] => true
     | [h] => bool_decide (coord_of 97 h = Some (file_of (from_square m)))
     | _ => false
     end.

Definition m_parse_san (b : MBoard) (san : string) : option Move :=
  let cs := filter (fun c => c ∉ ["x"; "+"; "#"]%char) (list_ascii_of_string san) in
  let '(pt, rest) := match cs with
                     | c :: r => match piece_of_letter c with
                                 | Some pt => (pt, r)
                                 | None => (PAWN, cs)
                                 end
                     | [] => (PAWN, [])
                     end in
  match reverse rest with
  | rk :: fl :: hint =>
      match coord_of 97 fl, coord_of 49 rk with
      | Some f, Some r =>
          match filter (fun m => san_matches b pt (reverse hint) (square_of f r) m = true)
                       (m_legal_moves b) with
          | [m] => Some m
          | _ => None
          end
      | _, _ => None
      end
  | _ => None
  end.

#[global] Instance mini_rules : Rules MBoard := {
  turn := side;
  move_stack := fun b => reverse (map snd (history b));
  legal_moves := m_legal_moves;
  push := m_push;
  pop := m_pop;
  is_check := m_is_check;
  is_checkmate := m_is_checkmate;
  piece_at := fun b sq => lookup_piece (pieces b) sq;
  piece_map := pieces;
  parse_san := m_parse_san }.

Definition back_rank : list PieceType :=
  [ROOK; KNIGHT; BISHOP; QUEEN; KING; BISHOP; KNIGHT; ROOK].

(** [chess.Board()]: the initial position. *)
Definition starting_board : MBoard :=
  {| pieces := imap (fun i pt => (i, mkPiece pt WHITE)) back_rank
               ++ imap (fun i pt => ((8 + i)%nat, mkPiece pt WHITE)) (replicate 8 PAWN)
               ++ imap (fun i pt => ((48 + i)%nat, mkPiece pt BLACK)) (replicate 8 PAWN)
               ++ imap (fun i pt => ((56 + i)%nat, mkPiece pt BLACK)) back_rank;
     side := WHITE;
     history := [] |}.

(** Tapes: a constant random tape and a constant clock. *)
Definition world (b : MBoard) (raw : N) (t : nat -> Q) : World :=
  {| board := b; rng := fun _ => raw; clock := t |}.

(** Moves and positions used in the examples. *)
Definition Nf3 : Move := mkMove 6%nat 21%nat None None.
Definition e2e4 : Move := mkMove 12%nat 28%nat None None.
Definition Ra8 : Move := mkMove 0%nat 56%nat None None.
Definition Kf1 : Move := mkMove 6%nat 5%nat None None.
Definition Kh8 : Move := mkMove 62%nat 63%nat None None.

(** White: Kg1, Ra1; Black: Kg8, pawns f7 g7 h7; White to move.
    [Ra8] is mate on the back rank. *)
Definition back_rank_board : MBoard :=
  {| pieces := [ (0%nat, mkPiece ROOK WHITE); (6%nat, mkPiece KING WHITE);
                 (53%nat, mkPiece PAWN BLACK); (54%nat, mkPiece PAWN BLACK);
                 (55%nat, mkPiece PAWN BLACK); (62%nat, mkPiece KING BLACK) ];
     side := WHITE;
     history := [] |}.

(** White: Kg1, Qd1; Black: Kg8; Black to move. *)
Definition queen_up_board : MBoard :=
  {| pieces := [ (3%nat, mkPiece QUEEN WHITE); (6%nat, mkPiece KING WHITE);
                 (62%nat, mkPiece KING BLACK) ];
     side := BLACK;
     history := [] |}.

(** An engine whose weight table was emptied after construction. *)
Definition unweighted_engine : KempBrdyEngine :=
  {| difficulty := 5; time_limit := 0.1; max_thinking_time := 0.5;
     opening_repertoire := init_opening_repertoire; tactical_weights := ∅ |}.

(** A ranking of two candidates. *)
Definition two_ranked : list (Q * Move) := [(2, Nf3); (1, e2e4)].

(** A clock that advances one second per reading. *)
Definition slow_clock (n : nat) : Q := inject_Z (Z.of_nat n).

End MiniChess.


(** ** Further positions and engine objects for the examples *)

Module Positions.

Import MiniChess.

(** The position after 1. e4 e5 2. Nf3 Nc6 3. Bc4 Nf6: six plies played. *)
Definition six_ply_board : MBoard :=
  foldl m_push starting_board
    [ e2e4; mkMove 52%nat 36%nat None None; Nf3; mkMove 57%nat 42%nat None None;
      mkMove 5%nat 26%nat None None; mkMove 62%nat 45%nat None None ].

(** [queen_up_board] with the pieces listed in the opposite order. *)
Definition queen_up_board_reversed : MBoard :=
  {| pieces := reverse (pieces queen_up_board);
     side := side queen_up_board;
     history := history queen_up_board |}.

(** An engine whose repertoire dict was emptied after construction. *)
Definition bookless_engine : KempBrdyEngine :=
  {| difficulty := 5; time_limit := 0.1; max_thinking_time := 0.5;
     opening_repertoire := ∅; tactical_weights := init_tactical_weights |}.

(** An engine whose repertoire lists were emptied after construction. *)
Definition empty_book_engine : KempBrdyEngine :=
  {| difficulty := 5; time_limit := 0.1; max_thinking_time := 0.5;
     opening_repertoire := <["white" := []]> (<["black" := []]> ∅);
     tactical_weights := init_tactical_weights |}.

End Positions.

(** ** The reporting script, [analyze_games.py]

    The script reads a PGN export, cuts it into blocks at blank lines,
    and tallies results, opening tokens, tactical tags and time controls
    per block.  Its statements between reading the file and printing
    the report are embedded here; a Python [str] is the list of its
    code points. *)

Module Analyze.

Definition pystr := list N.

(** An ASCII literal as a [str]. *)
Definition lit (s : string) : pystr := map N_of_ascii (list_ascii_of_string s).

(** Whitespace as [str.strip()] and [str.split()] see it. *)
Definition is_space (c : N) : bool :=
  ((9 <=? c) && (c <=? 13) || (28 <=? c) && (c <=? 32)
   || (c =? 133) || (c =? 160) || (c =? 5760)
   || (8192 <=? c) && (c <=? 8202)
   || (c =? 8232) || (c =? 8233) || (c =? 8239) || (c =? 8287) || (c =? 12288))%N.

Fixpoint lstrip (s : pystr) : pystr :=
  match s with
  | c :: r => if is_space c then lstrip r else s
  | [] => []
  end.

(** [s.strip()] *)
Definition strip (s : pystr) : pystr := reverse (lstrip (reverse (lstrip s))).

Definition is_empty_str (s : pystr) : bool :=
  match s with [] => true | _ => false end.

(** [s.split(sep)] for a separator of one character. *)
Fixpoint split_on (sep : N) (s : pystr) : list pystr :=
  match s with
  | [] => [[]]
  | c :: r =>
      if (c =? sep)%N then [] :: split_on sep r
      else match split_on sep r with
           | x :: xs => (c :: x) :: xs
           | [] => [[c]]
           end
  end.

(** [sep.join(parts)] *)
Fixpoint join (sep : pystr) (parts : list pystr) : pystr :=
  match parts with
  | [] => []
  | [x] => x
  | x :: rest => x ++ sep ++ join sep rest
  end.

(** [s.split()]: the maximal runs of characters that are not whitespace. *)
Fixpoint split_ws_from (s : pystr) (current : pystr) : list pystr :=
  match s with
  | [] => if is_empty_str current then [] else [current]
  | c :: r =>
      if is_space c
      then (if is_empty_str current then split_ws_from r []
            else current :: split_ws_from r [])
      else split_ws_from r (current ++ [c])
  end.

Definition split_ws (s : pystr) : list pystr := split_ws_from s [].

Fixpoint startswith (s prefix : pystr) : bool :=
  match prefix, s with
  | [], _ => true
  | a :: p, b :: r => (a =? b)%N && startswith r p
  | _ :: _, [] => false
  end.

Definition endswith (s suffix : pystr) : bool :=
  startswith (reverse s) (reverse suffix).

(** [needle in hay] *)
Fixpoint contains (needle hay : pystr) : bool :=
  startswith hay needle
  || match hay with
     | [] => false
     | _ :: r => contains needle r
     end.

Definition NEWLINE : pystr := [10%N].

(** Lines 11-22: the blocks between blank lines. *)
Fixpoint split_loop (lines : list pystr) (games : list pystr)
  (current_game : list pystr) : list pystr * list pystr :=
  match lines with
  | [] => (games, current_game)
  | line :: rest =>
      if is_empty_str (strip line)
      then match current_game with
           | [] => split_loop rest games current_game
           | _ => split_loop rest (games ++ [join NEWLINE current_game]) []
           end
      else split_loop rest games (current_game ++ [line])
  end.

Definition split_games (pgn_content : pystr) : list pystr :=
  let '(games, current_game) := split_loop (split_on 10 pgn_content) [] [] in
  match current_game with
  | [] => games
  | _ => games ++ [join NEWLINE current_game]
  end.

Fixpoint span_not (c : N) (s : pystr) : pystr * pystr :=
  match s with
  | [] => ([], [])
  | x :: r =>
      if (x =? c)%N then ([], s)
      else let '(a, b) := span_not c r in (x :: a, b)
  end.

(** The [re.match] of line 48 and its two groups: an opening bracket,
    one or more characters other than a space (the key), a space, a
    double quote, any characters other than a double quote (the value),
    a double quote and a closing bracket; the rest of the line is not
    looked at.  Both character classes exclude the character that must
    follow them, so the match is found without backtracking. *)
Definition match_header (line : pystr) : option (pystr * pystr) :=
  match line with
  | 91%N :: r =>
      let '(key, r1) := span_not 32 r in
      match key, r1 with
      | _ :: _, 32%N :: 34%N :: r2 =>
          let '(value, r3) := span_not 34 r2 in
          match r3 with
          | 34%N :: 93%N :: _ => Some (key, value)
          | _ => None
          end
      | _, _ => None
      end
  | _ => None
  end.

(** Lines 41-53: the headers of a block and its first line that is not
    a header. *)
Fixpoint read_headers (lines : list pystr) (headers : gmap pystr pystr)
  : gmap pystr pystr * pystr :=
  match lines with
  | [] => (headers, [])
  | line :: rest =>
      if startswith line (lit "[") && endswith line (lit "]")
      then match match_header line with
           | Some (k, v) => read_headers rest (<[k := v]> headers)
           | None => read_headers rest headers
           end
      else if negb (startswith line (lit "["))
      then (headers, line)
      else read_headers rest headers
  end.

(** [headers.get(key, default)] *)
Definition get (headers : gmap pystr pystr) (key default : string) : pystr :=
  match headers !! lit key with Some v => v | None => lit default end.

Definition str_eqb (a : pystr) (b : string) : bool := bool_decide (a = lit b).

Record Counts := mkCounts { white_wins : Z; black_wins : Z; draws : Z }.

(** Lines 63-77: "Count results when Kemp Brdy is playing". *)
Definition count_result (white black result : pystr) (c : Counts) : Counts :=
  if str_eqb white "KempBrdy" then
    if str_eqb result "1-0"
    then mkCounts (white_wins c + 1) (black_wins c) (draws c)
    else if str_eqb result "0-1"
    then mkCounts (white_wins c) (black_wins c + 1) (draws c)
    else if str_eqb result "1/2-1/2"
    then mkCounts (white_wins c) (black_wins c) (draws c + 1)
    else c
  else if str_eqb black "KempBrdy" then
    if str_eqb result "0-1"
    then mkCounts (white_wins c + 1) (black_wins c) (draws c)
    else if str_eqb result "1-0"
    then mkCounts (white_wins c) (black_wins c + 1) (draws c)
    else if str_eqb result "1/2-1/2"
    then mkCounts (white_wins c) (black_wins c) (draws c + 1)
    else c
  else c.

(** Lines 83-87: the tokens kept of the first ten. *)
Definition first_5_moves (moves : list pystr) : list pystr :=
  filter (fun move => contains (lit ".") move = false
                      /\ move ∉ [lit "1-0"; lit "0-1"; lit "1/2-1/2"])
         (take 10 moves).

(** Lines 95-107: the tags appended for one block. *)
Definition tactical_tags (move_text : pystr) : list pystr :=
  (if contains (lit "Nx") move_text && negb (contains (lit "+") move_text)
   then [lit "capture_knight"] else [])
  ++ (if contains (lit "Bx") move_text && negb (contains (lit "+") move_text)
      then [lit "capture_bishop"] else [])
  ++ (if contains (lit "Qx") move_text && negb (contains (lit "+") move_text)
      then [lit "capture_queen"] else [])
  ++ (if contains (lit "+#") move_text || contains (lit "#") move_text
      then [lit "checkmate"]
      else if contains (lit "+") move_text then [lit "check"] else [])
  ++ (if contains (lit "O-O") move_text || contains (lit "O-O-O") move_text
      then [lit "castling"] else []).

(** The lists and counters the loop over the blocks fills. *)
Record Report := mkReport {
  opening_moves : list pystr;
  tactical_patterns : list pystr;
  time_controls : list pystr;
  counts : Counts }.

(** Lines 36-107: the body of the loop, for one block. *)
Definition analyze_game (game_text : pystr) (r : Report) : Report :=
  if is_empty_str (strip game_text) then r
  else
    let lines := split_on 10 game_text in
    let '(headers, move_line) := read_headers lines ∅ in
    let white := get headers "White" "Unknown" in
    let black := get headers "Black" "Unknown" in
    let result := get headers "Result" "*" in
    let time_control := get headers "TimeControl" "Unknown" in
    let counts' := count_result white black result (counts r) in
    let time_controls' := time_controls r ++ [time_control] in
    if is_empty_str move_line
    then mkReport (opening_moves r) (tactical_patterns r) time_controls' counts'
    else
      let moves := split_ws move_line in
      let first := first_5_moves moves in
      let opening_moves' :=
        match first with
        | [] => opening_moves r
        | _ => opening_moves r ++ [join (lit " ") first]
        end in
      let move_text := join (lit " ") moves in
      mkReport opening_moves' (tactical_patterns r ++ tactical_tags move_text)
               time_controls' counts'.

Definition empty_report : Report := mkReport [] [] [] (mkCounts 0 0 0).

(** The loop over all blocks. *)
Definition analyze (games : list pystr) : Report :=
  foldl (fun r game_text => analyze_game game_text r) empty_report games.

(** The report of a file. *)
Definition analyze_file (pgn_content : pystr) : Report :=
  analyze (split_games pgn_content).

(** The tag pair line of a PGN export: the key and the quoted value in
    square brackets. *)
Definition header_line (key value : pystr) : pystr :=
  [91%N] ++ key ++ [32%N; 34%N] ++ value ++ [34%N; 93%N].

(** A small export: one game won by KempBrdy with White.  Its tag
    section and its movetext, each followed by a blank line. *)
Definition sample_tags : list pystr :=
  [ header_line (lit "White") (lit "KempBrdy");
    header_line (lit "Black") (lit "someone");
    header_line (lit "Result") (lit "1-0");
    header_line (lit "TimeControl") (lit "60+0") ].

Definition sample_movetext : pystr :=
  lit "1. e4 e5 2. Qh5 Nc6 3. Bc4 Nf6 4. Qxf7# 1-0".

Definition sample_blocks : list (list pystr * list pystr) :=
  [ (sample_tags, [[]]); ([sample_movetext], [[]]) ].

Definition sample_pgn : pystr :=
  join NEWLINE (concat (map (fun b => fst b ++ snd b) sample_blocks)).

End Analyze.

(** * Properties of the engine *)

(** ** Ranking and shuffling keep the candidates *)

Lemma insert_desc_perm {A} (x : Q * A) (l : list (Q * A)) :
  insert_desc x l ≡ₚ x :: l.
Proof.
  induction l as [|y r IH]; simpl; [done|].
  destruct (Qle_bool (fst y) (fst x)); [done|].
  rewrite IH. apply Permutation_swap.
Qed.

Lemma sort_desc_perm {A} (l : list (Q * A)) : sort_desc l ≡ₚ l.
Proof.
  induction l as [|x l IH]; simpl; [done|].
  unfold sort_desc in *. simpl. rewrite insert_desc_perm. by rewrite IH.
Qed.

Lemma insert_desc_sorted {A} (x : Q * A) (l : list (Q * A)) :
  StronglySorted (fun a b => fst b <= fst a) l ->
  StronglySorted (fun a b => fst b <= fst a) (insert_desc x l).
Proof.
  induction l as [|y r IH]; intros Hs; simpl.
  - repeat constructor.
  - apply StronglySorted_inv in Hs as [Hr Hy].
    destruct (Qle_bool (fst y) (fst x)) eqn:E.
    + apply Qle_bool_iff in E. constructor; [by constructor|].
      constructor; [done|].
      eapply Forall_impl; [exact Hy|]. intros b Hb. simpl in Hb. lra.
    + assert (fst x <= fst y).
      { apply Qlt_le_weak, Qnot_le_lt. rewrite <- Qle_bool_iff. congruence. }
      constructor; [by apply IH|].
      rewrite insert_desc_perm. by constructor.
Qed.

Lemma sort_desc_sorted {A} (l : list (Q * A)) :
  StronglySorted (fun a b => fst b <= fst a) (sort_desc l).
Proof.
  induction l as [|x l IH]; [constructor|].
  unfold sort_desc in *. simpl. by apply insert_desc_sorted.
Qed.

(** The first entry of the ranking has the highest score. *)
Lemma sort_desc_head_max {A} (l : list (Q * A)) (best x : Q * A) :
  head (sort_desc l) = Some best -> x ∈ l -> fst x <= fst best.
Proof.
  intros Hhead Hx. rewrite <- (sort_desc_perm l) in Hx.
  pose proof (sort_desc_sorted l) as Hs.
  destruct (sort_desc l) as [|b r]; [done|].
  injection Hhead as ->. apply StronglySorted_inv in Hs as [_ Hall].
  apply elem_of_cons in Hx as [->|Hx]; [lra|].
  rewrite Forall_forall in Hall. by apply Hall.
Qed.

Lemma index_ok {A} (l : list A) (i : nat) :
  (i < length l)%nat -> exists a, index l i = Ok a /\ l !! i = Some a.
Proof.
  intros Hi. destruct (lookup_lt_is_Some_2 l i Hi) as [a Ha].
  exists a. unfold index. by rewrite Ha.
Qed.

Lemma index_elem {A} (l : list A) (i : nat) (a : A) :
  index l i = Ok a -> a ∈ l.
Proof.
  unfold index. destruct (l !! i) eqn:E; [|done].
  intros [= <-]. by eapply list_elem_of_lookup_2.
Qed.

Lemma swap_perm {A} (x y : list A) (i j : nat) :
  swap x i j = Ok y -> x ≡ₚ y /\ length y = length x.
Proof.
  unfold swap, index, rbind.
  destruct (x !! i) as [a|] eqn:Ei; [|done].
  destruct (x !! j) as [b|] eqn:Ej; [|done].
  intros [= <-].
  assert (Hi : (i < length x)%nat) by (apply lookup_lt_is_Some; eauto).
  assert (Hj : (j < length x)%nat) by (apply lookup_lt_is_Some; eauto).
  split; [|by rewrite !length_insert].
  destruct (decide (i = j)) as [->|Hne].
  { rewrite Ei in Ej. injection Ej as ->.
    rewrite (list_insert_id x j b Ei). by rewrite (list_insert_id x j b Ei). }
  apply Permutation_inj. split; [by rewrite !length_insert|].
  exists (fun n => if decide (n = i) then j else if decide (n = j) then i else n).
  split.
  - intros n m. repeat case_decide; intros; subst; congruence.
  - intros n. repeat case_decide; subst.
    + rewrite list_lookup_insert_eq; [done|by rewrite length_insert].
    + rewrite list_lookup_insert_ne by done.
      by rewrite list_lookup_insert_eq.
    + by rewrite !list_lookup_insert_ne.
Qed.

Lemma swap_ok {A} (x : list A) (i j : nat) :
  (i < length x)%nat -> (j < length x)%nat -> exists y, swap x i j = Ok y.
Proof.
  intros Hi Hj.
  destruct (index_ok x i Hi) as (a & Ha & _).
  destruct (index_ok x j Hj) as (b & Hb & _).
  unfold swap. rewrite Ha, Hb. simpl. eauto.
Qed.

Section EngineFacts.

Context {Board : Type} `{Rules Board}.

Implicit Types (w : @World Board) (self : KempBrdyEngine).

Lemma randbelow_run (n : nat) w :
  exists j w', randbelow n w = (Ok j, w') /\ only_draws w w'
               /\ ((0 < n)%nat -> (j < n)%nat).
Proof.
  unfold randbelow, bind, next_raw, ret. simpl.
  eexists _, _. split; [reflexivity|]. split; [by split|].
  intros Hn.
  assert (rng w 0%nat mod N.of_nat n < N.of_nat n)%N by (apply N.mod_lt; lia).
  lia.
Qed.

(** [random.uniform(-5, 5)] stays in the half-open interval it names. *)
Lemma random_uniform_range w :
  exists u w', random_uniform (-5) 5 w = (Ok u, w') /\ -5 <= u /\ u < 5.
Proof.
  unfold random_uniform, random_random, bind, next_raw, ret. simpl.
  eexists _, _. split; [reflexivity|].
  assert (Hr : (rng w 0%nat mod 2 ^ 53 < 2 ^ 53)%N) by (by apply N.mod_lt).
  set (k := (rng w 0%nat mod 2 ^ 53)%N) in *.
  assert (H0 : 0 <= Z.of_N k # 2 ^ 53) by (unfold Qle; simpl; lia).
  assert (H1 : Z.of_N k # 2 ^ 53 < 1) by (unfold Qlt; simpl; lia).
  split; lra.
Qed.

Lemma shuffle_from_run {A} (i : nat) : forall (x : list A) w,
  (i = 0 \/ i < length x)%nat ->
  exists out w', shuffle_from i x w = (Ok out, w') /\ x ≡ₚ out /\ only_draws w w'.
Proof.
  induction i as [|i IH]; intros x w Hi.
  - exists x, w. by repeat split.
  - destruct Hi as [Hi|Hi]; [lia|].
    simpl. unfold bind at 1.
    destruct (randbelow_run (S (S i)) w) as (j & w1 & -> & Hb1 & Hj).
    specialize (Hj ltac:(lia)).
    destruct (swap_ok x (S i) j) as [y Hy]; [lia|lia|].
    destruct (swap_perm _ _ _ _ Hy) as [Hp Hl].
    unfold bind, lift. rewrite Hy.
    destruct (IH y w1) as (out & w' & -> & Hp' & Hb'); [lia|].
    exists out, w'. split; [done|]. split; [by rewrite Hp|].
    unfold only_draws in *. intuition congruence.
Qed.

Lemma random_shuffle_run {A} (x : list A) w :
  exists out w', random_shuffle x w = (Ok out, w') /\ x ≡ₚ out /\ only_draws w w'.
Proof.
  unfold random_shuffle. apply shuffle_from_run.
  destruct x; simpl; lia.
Qed.

Lemma _add_randomness_run self (scored : list (Q * Move)) w :
  exists out w', _add_randomness self scored w = (Ok out, w')
                 /\ scored ≡ₚ out /\ only_draws w w'.
Proof.
  unfold _add_randomness.
  destruct (9 <=? difficulty self)%Z.
  { exists scored, w. by repeat split. }
  unfold bind.
  destruct (random_shuffle_run (take (5 `min` length scored) scored) w)
    as (top & w' & -> & Hp & Hb).
  destruct (5 <? length scored)%nat eqn:E.
  - apply Nat.ltb_lt in E. exists (top ++ drop 5 scored), w'.
    split; [done|]. split; [|done].
    rewrite <- Hp. rewrite Nat.min_l by lia. by rewrite take_drop.
  - apply Nat.ltb_ge in E. exists top, w'.
    split; [done|]. split; [|done].
    rewrite <- Hp. rewrite Nat.min_r by lia. by rewrite take_ge.
Qed.

(** ** Evaluating a move restores the position *)

Lemma try_finally_pop_board {A} (body : Py World A) w :
  (forall w0, board (snd (body w0)) = board w0) ->
  board (snd (try_finally body board_pop w)) = pop (board w).
Proof.
  intros Hbody. unfold try_finally.
  specialize (Hbody w). destruct (body w) as [r w1]. simpl in *.
  by rewrite Hbody.
Qed.

(** Runs [_evaluate_move] symbolically and splits on the three exits of
    the [try] body: checkmate [return], fall through, exception. *)
Ltac evaluate_move_exits self move w :=
  unfold _evaluate_move, bind, board_push, try_finally, get_board, lift, board_pop;
  simpl;
  destruct (score_body self (push (board w) move) move) as [[?v|?score]|?e];
  simpl.

Lemma _evaluate_move_rng self move w :
  rng (snd (_evaluate_move self move w)) = rng w
  \/ rng (snd (_evaluate_move self move w)) = (fun n => rng w (S n)).
Proof. evaluate_move_exits self move w; auto. Qed.

Lemma _evaluate_move_clock self move w :
  clock (snd (_evaluate_move self move w)) = clock w.
Proof. evaluate_move_exits self move w; done. Qed.

(** The outcome of [_evaluate_move] in terms of the [try] body. *)
Lemma _evaluate_move_outcome self move w :
  fst (_evaluate_move self move w) =
  match score_body self (push (board w) move) move with
  | Ok (inl v) => Ok v
  | Ok (inr score) =>
      Ok (score + (-5 + (5 - -5) * (Z.of_N (rng w 0%nat mod 2 ^ 53) # 2 ^ 53))
                  * inject_Z (11 - difficulty self))
  | Raise e => Raise e
  end.
Proof. evaluate_move_exits self move w; done. Qed.

(** ** The weight table of [__init__] *)

Lemma init_weight_check : getitem init_tactical_weights "check" = Ok 0.8.
Proof. reflexivity. Qed.

Lemma init_weight_checkmate : getitem init_tactical_weights "checkmate" = Ok 1.0.
Proof. reflexivity. Qed.

Lemma init_weight_development : getitem init_tactical_weights "development" = Ok 0.8.
Proof. reflexivity. Qed.

Lemma init_weight_center : getitem init_tactical_weights "center_control" = Ok 0.7.
Proof. reflexivity. Qed.

Lemma init_weight_castling : getitem init_tactical_weights "castling" = Ok 0.6.
Proof. reflexivity. Qed.

Lemma init_weight_aggression : getitem init_tactical_weights "aggression" = Ok 0.9.
Proof. reflexivity. Qed.

(** Only queen, bishop and knight have a capture weight; the other
    piece types take the fallback branch. *)
Lemma init_weight_capture (piece : Piece) :
  init_tactical_weights !! _get_piece_type piece =
  match piece_type piece with
  | QUEEN => Some 0.9
  | BISHOP | KNIGHT => Some 0.7
  | PAWN | ROOK | KING => None
  end.
Proof. unfold _get_piece_type. destruct (piece_type piece); reflexivity. Qed.

Lemma capture_bonus_init_value d b move :
  capture_bonus (init d) b move =
  match piece_at b (to_square move) with
  | Some piece =>
      match piece_type piece with
      | QUEEN => Ok (0.9 * inject_Z 9 * 10)
      | BISHOP | KNIGHT => Ok (0.7 * inject_Z 3 * 10)
      | ROOK => Ok (inject_Z 5 * 5)
      | PAWN => Ok (inject_Z 1 * 5)
      | KING => Ok (inject_Z 0 * 5)
      end
  | None => Ok 0
  end.
Proof.
  unfold capture_bonus. simpl tactical_weights.
  destruct (piece_at b (to_square move)) as [piece|]; [|done].
  rewrite init_weight_capture. unfold _get_piece_value.
  destruct (piece_type piece); reflexivity.
Qed.

Lemma check_bonus_init d b :
  exists q, check_bonus (init d) b = Ok q /\ 0 <= q <= 40.
Proof.
  unfold check_bonus. simpl tactical_weights. rewrite init_weight_check. simpl.
  destruct (is_check b); eexists; (split; [reflexivity|]); lra.
Qed.

Lemma capture_bonus_init d b move :
  exists q, capture_bonus (init d) b move = Ok q /\ 0 <= q <= 81.
Proof.
  rewrite capture_bonus_init_value.
  destruct (piece_at b (to_square move)) as [piece|].
  - destruct (piece_type piece); eexists; (split; [reflexivity|]);
      unfold inject_Z; lra.
  - eexists; (split; [reflexivity|]); lra.
Qed.

Lemma development_bonus_init d b move :
  exists q, development_bonus (init d) b move = Ok q /\ 0 <= q <= 12.
Proof.
  unfold development_bonus. simpl tactical_weights.
  rewrite init_weight_development. simpl.
  destruct (_is_development_move b move); eexists; (split; [reflexivity|]); lra.
Qed.

Lemma center_bonus_init d move :
  exists q, center_bonus (init d) move = Ok q /\ 0 <= q <= 7.
Proof.
  unfold center_bonus. simpl tactical_weights. rewrite init_weight_center. simpl.
  destruct (_controls_center (to_square move)); eexists; (split; [reflexivity|]); lra.
Qed.

Lemma castling_bonus_init d move :
  exists q, castling_bonus (init d) move = Ok q /\ 0 <= q <= 12.
Proof.
  unfold castling_bonus. simpl tactical_weights. rewrite init_weight_castling. simpl.
  destruct (_ && _); eexists; (split; [reflexivity|]); lra.
Qed.

Lemma aggression_bonus_init d b move :
  exists q, aggression_bonus (init d) b move = Ok q /\ 0 <= q <= 10.8.
Proof.
  unfold aggression_bonus. simpl tactical_weights.
  rewrite init_weight_aggression. simpl.
  destruct (_is_aggressive_move b move); eexists; (split; [reflexivity|]); lra.
Qed.

Lemma queen_bonus_bound b move : 0 <= queen_bonus b move <= 13.
Proof.
  unfold queen_bonus.
  destruct (piece_at b (from_square move)) as [piece|]; [|lra].
  destruct (bool_decide _); [|lra].
  destruct (_controls_center _); lra.
Qed.

Lemma _get_piece_value_bound (piece : Piece) : (0 <= _get_piece_value piece <= 9)%Z.
Proof. unfold _get_piece_value. destruct (piece_type piece); lia. Qed.

Lemma material_loop_bound (items : list (Square * Piece)) : forall score : Z,
  (score - 9 * Z.of_nat (length items) <= material_loop items score
   <= score + 9 * Z.of_nat (length items))%Z.
Proof.
  induction items as [|[sq piece] rest IH]; intros score; simpl material_loop.
  - simpl. lia.
  - pose proof (_get_piece_value_bound piece) as Hv.
    destruct (bool_decide (color piece = WHITE)).
    + specialize (IH (score + _get_piece_value piece)%Z).
      rewrite length_cons. lia.
    + specialize (IH (score - _get_piece_value piece)%Z).
      rewrite length_cons. lia.
Qed.

Lemma _evaluate_material_bound b :
  (_evaluate_material b <= 9 * Z.of_nat (length (piece_map b)))%Z.
Proof.
  unfold _evaluate_material.
  pose proof (material_loop_bound (piece_map b) 0). lia.
Qed.

Lemma _evaluate_position_bound b :
  _evaluate_position b <= 10 + inject_Z (Z.of_nat (length (legal_moves b))) * 0.5.
Proof.
  unfold _evaluate_position.
  assert (0 <= inject_Z (Z.of_nat (length (legal_moves b)))).
  { change 0 with (inject_Z 0). rewrite <- Zle_Qle. lia. }
  destruct (negb (is_check b)); lra.
Qed.

(** With the table of [__init__] the [try] body never raises. *)
Lemma score_body_init d b move :
  if is_checkmate b
  then score_body (init d) b move = Ok (inl (1000 + 1.0 * 100))
  else exists score, score_body (init d) b move = Ok (inr score)
       /\ score <= 175.8 + inject_Z (_evaluate_material b) + _evaluate_position b.
Proof.
  unfold score_body. destruct (is_checkmate b).
  { simpl tactical_weights. by rewrite init_weight_checkmate. }
  destruct (check_bonus_init d b) as (chk & -> & Hchk).
  destruct (capture_bonus_init d b move) as (cap & -> & Hcap).
  destruct (development_bonus_init d b move) as (dev & -> & Hdev).
  destruct (center_bonus_init d move) as (cen & -> & Hcen).
  destruct (castling_bonus_init d move) as (cas & -> & Hcas).
  destruct (aggression_bonus_init d b move) as (agg & -> & Hagg).
  pose proof (queen_bonus_bound b move) as Hq.
  simpl. eexists. split; [reflexivity|]. lra.
Qed.

Lemma _evaluate_move_init_ok d move w :
  exists score w', _evaluate_move (init d) move w = (Ok score, w').
Proof.
  pose proof (_evaluate_move_outcome (init d) move w) as Ho.
  pose proof (score_body_init d (push (board w) move) move) as Hb.
  destruct (_evaluate_move (init d) move w) as [r w'] eqn:E. simpl in Ho.
  destruct (is_checkmate (push (board w) move)).
  - rewrite Hb in Ho. subst r. eauto.
  - destruct Hb as (score & Hs & _). rewrite Hs in Ho. subst r. eauto.
Qed.

(** ** The steps of [get_move] *)

Lemma random_choice_run {A} (seq : list A) w :
  seq <> [] ->
  exists a w', random_choice seq w = (Ok a, w') /\ a ∈ seq /\ only_draws w w'.
Proof.
  intros Hne. destruct seq as [|a0 seq]; [done|].
  unfold random_choice, bind.
  destruct (randbelow_run (length (a0 :: seq)) w) as (j & w' & -> & Hf & Hj).
  destruct (index_ok (a0 :: seq) j) as (a & Ha & Hl); [apply Hj; simpl; lia|].
  unfold lift. rewrite Ha. exists a, w'.
  split; [done|]. split; [|done]. by eapply list_elem_of_lookup_2.
Qed.

(** [random.choice] is the identity from draws to positions: a raw draw
    [k] below the length picks the entry at position [k]. *)
Lemma random_choice_index {A} (seq : list A) (k : nat) w :
  (k < length seq)%nat ->
  rng w 0%nat = N.of_nat k ->
  fst (random_choice seq w) = index seq k.
Proof.
  intros Hk Hr. destruct seq as [|a seq]; [simpl in Hk; lia|].
  unfold random_choice, bind, randbelow, next_raw, ret, lift. simpl fst.
  rewrite Hr. f_equal. simpl length in Hk.
  rewrite N.mod_small by lia. apply Nat2N.id.
Qed.

Lemma init_repertoire_white :
  exists openings, getitem init_opening_repertoire "white" = Ok openings /\ openings <> [].
Proof. eexists. split; [reflexivity|done]. Qed.

Lemma init_repertoire_black :
  exists openings, getitem init_opening_repertoire "black" = Ok openings /\ openings <> [].
Proof. eexists. split; [reflexivity|done]. Qed.

Lemma _get_opening_move_run d w :
  (forall b san m, parse_san b san = Some m -> m ∈ legal_moves b) ->
  exists om w', _get_opening_move (init d) w = (Ok om, w') /\ only_draws w w'
                /\ (forall m, om = Some m -> m ∈ legal_moves (board w)).
Proof.
  intros Hsan. unfold _get_opening_move, bind at 1, get_board.
  destruct (6 <? length (move_stack (board w)))%nat.
  { exists None, w. split; [done|]. split; [by split|done]. }
  assert (exists openings,
    (if bool_decide (turn (board w) = WHITE)
     then getitem (opening_repertoire (init d)) "white"
     else getitem (opening_repertoire (init d)) "black") = Ok openings
    /\ openings <> []) as (openings & -> & Hne).
  { destruct (bool_decide _); cbn [opening_repertoire init].
    - apply init_repertoire_white.
    - apply init_repertoire_black. }
  unfold bind, lift.
  destruct (random_choice_run openings w Hne) as (chosen & w' & -> & _ & Hf).
  destruct (length (move_stack (board w)) <? length chosen)%nat eqn:E.
  - apply Nat.ltb_lt in E.
    destruct (index_ok chosen _ E) as (san & -> & _).
    destruct (parse_san (board w) san) as [m|] eqn:Ep.
    + exists (Some m), w'. split; [done|]. split; [done|].
      intros m' [= <-]. by eapply Hsan.
    + exists None, w'. split; [done|]. split; [done|]. done.
  - exists None, w'. split; [done|]. split; [done|]. done.
Qed.

Lemma score_moves_run d (moves : list Move) : forall (acc : list (Q * Move)) w,
  exists scored w', score_moves (init d) moves acc w = (Ok (acc ++ scored), w')
                    /\ map snd scored = moves /\ clock w' = clock w.
Proof.
  induction moves as [|move rest IH]; intros acc w.
  - exists [], w. simpl. rewrite app_nil_r. by repeat split.
  - simpl. unfold bind.
    destruct (_evaluate_move_init_ok d move w) as (score & w1 & E).
    pose proof (_evaluate_move_clock (init d) move w) as Hc.
    rewrite E in *. simpl in Hc.
    destruct (IH (acc ++ [(score, move)]) w1) as (scored & w' & -> & Hm & Hc').
    exists ((score, move) :: scored), w'.
    split; [by rewrite <- app_assoc|].
    split; [simpl; by rewrite Hm|congruence].
Qed.

Lemma randomize_step_run self (scored : list (Q * Move)) w :
  exists out w', randomize_step self scored w = (Ok out, w')
                 /\ scored ≡ₚ out /\ clock w' = clock w.
Proof.
  unfold randomize_step. destruct (difficulty self <? 7)%Z.
  - destruct (_add_randomness_run self scored w) as (out & w' & E & Hp & _ & Hc).
    eauto 6.
  - exists scored, w. by repeat split.
Qed.

(** The budget check and what follows it in [get_move]. *)
Lemma randbelow_frame (n : nat) w r w' :
  randbelow n w = (r, w') -> only_draws w w'.
Proof.
  destruct (randbelow_run n w) as (j & w1 & E & Hf & _).
  rewrite E. by intros [= _ <-].
Qed.

Lemma random_choice_frame {A} (seq : list A) w r w' :
  random_choice seq w = (r, w') -> only_draws w w'.
Proof.
  destruct seq as [|a seq].
  - simpl. unfold raise. intros [= _ <-]. by split.
  - unfold random_choice, bind.
    destruct (randbelow (length (a :: seq)) w) as [[j|e] w1] eqn:E;
      apply randbelow_frame in E.
    + unfold lift. by intros [= _ <-].
    + by intros [= _ <-].
Qed.

Lemma _get_opening_move_frame self w r w' :
  _get_opening_move self w = (r, w') -> only_draws w w'.
Proof.
  unfold _get_opening_move, bind at 1, get_board.
  destruct (6 <? length (move_stack (board w)))%nat.
  { unfold ret. intros [= _ <-]. by split. }
  unfold bind at 1, lift at 1.
  destruct (if bool_decide (turn (board w) = WHITE)
            then getitem (opening_repertoire self) "white"
            else getitem (opening_repertoire self) "black") as [openings|e].
  2: { intros [= _ <-]. by split. }
  unfold bind at 1.
  destruct (random_choice openings w) as [[chosen|e] w1] eqn:E;
    apply random_choice_frame in E.
  2: { by intros [= _ <-]. }
  destruct (_ <? length chosen)%nat.
  - unfold bind, lift.
    destruct (index chosen _) as [san|e]; [|by intros [= _ <-]].
    destruct (parse_san _ san); unfold ret; by intros [= _ <-].
  - unfold ret. by intros [= _ <-].
Qed.

(** [get_move] up to the budget check, when the book gave no move and
    the position has legal moves. *)
Lemma get_move_scoring_path d w om w1 :
  _get_opening_move (init d) (snd (time_time w)) = (Ok om, w1) ->
  truthy om = false ->
  legal_moves (board w) <> [] ->
  exists best_move w2,
    best_move ∈ legal_moves (board w)
    /\ clock w2 = (fun n => clock w (S (S n)))
    /\ get_move (init d) w =
       (if negb (Qle_bool (clock w 1%nat - clock w 0%nat) (time_limit (init d)))
        then (m <- random_choice (legal_moves (board w)) ;; ret (Some m)) w2
        else (Ok (Some best_move), w2)).
Proof.
  intros Eo Hom Hlegal.
  destruct (_get_opening_move_frame _ _ _ _ Eo) as [Hb1 Hc1].
  unfold get_move, bind at 1. unfold time_time at 1.
  unfold bind at 1. unfold time_time in Eo, Hb1, Hc1. simpl in Eo, Hb1, Hc1.
  rewrite Eo, Hom. unfold bind at 1, get_board at 1. rewrite Hb1.
  destruct (legal_moves (board w)) as [|m0 legal] eqn:El; [done|].
  unfold bind at 1.
  destruct (score_moves_run d (m0 :: legal) [] w1) as (scored & w2 & -> & Hm & Hc2).
  simpl app. unfold bind at 1.
  destruct (randomize_step_run (init d) (sort_desc scored) w2)
    as (ranked & w3 & -> & Hp & Hc3).
  assert (Hperm : scored ≡ₚ ranked) by (by rewrite <- Hp, sort_desc_perm).
  destruct ranked as [|best ranked].
  { apply Permutation_nil_r in Hperm. subst scored. done. }
  unfold bind at 1, lift at 1, index. simpl lookup.
  assert (Hbest : snd best ∈ m0 :: legal).
  { rewrite <- Hm. apply list_elem_of_fmap_2.
    rewrite Hperm. apply list_elem_of_here. }
  exists (snd best), {| board := board w3; rng := rng w3;
                        clock := fun n => clock w3 (S n) |}.
  split; [done|]. split; [simpl; by rewrite Hc3, Hc2, Hc1|].
  unfold bind at 1, time_time at 1.
  rewrite Hc3, Hc2, Hc1.
  destruct (negb _); reflexivity.
Qed.

Lemma get_move_no_legal_moves self w om w1 :
  _get_opening_move self (snd (time_time w)) = (Ok om, w1) ->
  truthy om = false ->
  legal_moves (board w) = [] ->
  get_move self w = (Ok None, w1).
Proof.
  intros Eo Hom Hlegal.
  destruct (_get_opening_move_frame _ _ _ _ Eo) as [Hb1 _].
  unfold get_move, bind at 1. unfold time_time at 1.
  unfold bind at 1. unfold time_time in Eo, Hb1. simpl in Eo, Hb1.
  rewrite Eo, Hom. unfold bind at 1, get_board at 1. rewrite Hb1, Hlegal.
  reflexivity.
Qed.

Lemma get_move_book_move self w m w1 :
  _get_opening_move self (snd (time_time w)) = (Ok (Some m), w1) ->
  move_bool m = true ->
  get_move self w = (Ok (Some m), w1).
Proof.
  intros Eo Hm.
  unfold get_move, bind at 1. unfold time_time at 1.
  unfold bind at 1. unfold time_time in Eo. simpl in Eo.
  rewrite Eo. unfold truthy. rewrite Hm. reflexivity.
Qed.

(** ** Statements of the specification *)

(** C1. With the engine of [__init__] at any difficulty (1..10
    included) and a rules library whose SAN parser answers only legal
    moves, [get_move] does not raise; it returns [None] when the
    position has no legal move and otherwise one of the legal moves. *)
Theorem get_move_returns_legal_move_or_none (d : Z) w :
  (forall b san m, parse_san b san = Some m -> m ∈ legal_moves b) ->
  exists r w', get_move (init d) w = (Ok r, w')
    /\ (legal_moves (board w) = [] -> r = None)
    /\ (legal_moves (board w) <> [] ->
        exists m, r = Some m /\ m ∈ legal_moves (board w)).
Proof.
  intros Hsan.
  destruct (_get_opening_move_run d (snd (time_time w)) Hsan)
    as (om & w1 & Eo & _ & Hom).
  change (board (snd (time_time w))) with (board w) in Hom.
  destruct (truthy om) eqn:Ht.
  - destruct om as [m|]; [|done]. simpl in Ht.
    rewrite (get_move_book_move _ _ _ _ Eo Ht).
    specialize (Hom m eq_refl).
    exists (Some m), w1. split; [done|]. split.
    + intros Hnil. rewrite Hnil in Hom. by apply elem_of_nil in Hom.
    + eauto.
  - destruct (decide (legal_moves (board w) = [])) as [Hnil|Hne].
    + rewrite (get_move_no_legal_moves _ _ _ _ Eo Ht Hnil).
      exists None, w1. by repeat split.
    + destruct (get_move_scoring_path d w om w1 Eo Ht Hne)
        as (best & w2 & Hbest & _ & ->).
      destruct (negb _).
      * unfold bind.
        destruct (random_choice_run (legal_moves (board w)) w2 Hne)
          as (m & w' & -> & Hm & _).
        exists (Some m), w'. split; [done|]. split; [done|]. eauto.
      * exists (Some best), w2. split; [done|]. split; [done|]. eauto.
Qed.

(** C2. A move that gives checkmate is scored [1000 + checkmate_weight
    * 100] (1100 with the table of [__init__]); a move that does not is
    scored strictly lower when its perturbation draw is zero, on every
    board with at most 64 occupied squares and at most 218 legal moves
    (the maximum over chess positions) after the move. *)
Theorem checkmate_score_dominates (d : Z) w w' (mate other : Move) (u : Q) :
  is_checkmate (push (board w) mate) = true ->
  is_checkmate (push (board w') other) = false ->
  (length (piece_map (push (board w') other)) <= 64)%nat ->
  (length (legal_moves (push (board w') other)) <= 218)%nat ->
  fst (random_uniform (-5) 5 w') = Ok u ->
  u == 0 ->
  exists cw s_mate s_other,
    getitem (tactical_weights (init d)) "checkmate" = Ok cw
    /\ fst (_evaluate_move (init d) mate w) = Ok s_mate
    /\ s_mate = 1000 + cw * 100
    /\ fst (_evaluate_move (init d) other w') = Ok s_other
    /\ s_other < s_mate.
Proof.
  intros Hmate Hother Hpieces Hmoves Hu Hu0.
  pose proof (score_body_init d (push (board w) mate) mate) as Hm.
  rewrite Hmate in Hm.
  pose proof (score_body_init d (push (board w') other) other) as Ho.
  rewrite Hother in Ho. destruct Ho as (score & Hs & Hbound).
  unfold random_uniform, random_random, bind, next_raw, ret in Hu.
  simpl in Hu. injection Hu as Hu.
  exists 1.0, (1000 + 1.0 * 100),
    (score + u * inject_Z (11 - difficulty (init d))).
  split; [reflexivity|].
  split; [by rewrite _evaluate_move_outcome, Hm|].
  split; [reflexivity|].
  split; [rewrite _evaluate_move_outcome, Hs; by rewrite Hu|].
  pose proof (_evaluate_material_bound (push (board w') other)) as Hmat.
  pose proof (_evaluate_position_bound (push (board w') other)) as Hpos.
  assert (Hmat' : inject_Z (_evaluate_material (push (board w') other)) <= 576).
  { change 576 with (inject_Z 576). rewrite <- Zle_Qle. lia. }
  assert (Hmob : inject_Z (Z.of_nat (length (legal_moves (push (board w') other)))) <= 218).
  { change 218 with (inject_Z 218). rewrite <- Zle_Qle. lia. }
  assert (Hnoise : u * inject_Z (11 - difficulty (init d)) == 0).
  { rewrite Hu0. ring. }
  rewrite Hnoise. lra.
Qed.

(** C3. Evaluating a move leaves the caller's position as it was,
    whatever the outcome of the evaluation: the checkmate [return], a
    normal score, or an exception of the [try] body (an engine whose
    weight table lacks a key raises [KeyError]).  The rules library is
    assumed to undo with [pop] what [push] did. *)
Theorem evaluate_move_restores_position self (move : Move) w :
  pop (push (board w) move) = board w ->
  board (snd (_evaluate_move self move w)) = board w.
Proof.
  intros Hundo. evaluate_move_exits self move w.
  - (* [return] in the checkmate branch: the finaliser has popped *)
    exact Hundo.
  - (* normal exit: popped, then the perturbation is drawn *)
    exact Hundo.
  - (* exception in the body: popped, then raised again *)
    exact Hundo.
Qed.

Lemma time_limit_below_double (d : Z) : time_limit (init d) < double_0_1.
Proof. reflexivity. Qed.

(** C9. When the book gave no move, the position has legal moves and
    the second clock reading exceeds the first by more than
    [time_limit] (the double 0.1 the program compares with), [get_move]
    does not raise and discards the ranking: after scoring and
    randomising it reads the clock and returns the result of
    [random.choice(legal_moves)] taken at that point of the random tape,
    that is, the legal move at the position the next draw names. *)
Theorem budget_overrun_returns_random_legal_move (d : Z) w om w1 :
  _get_opening_move (init d) (snd (time_time w)) = (Ok om, w1) ->
  truthy om = false ->
  legal_moves (board w) <> [] ->
  double_0_1 < clock w 1%nat - clock w 0%nat ->
  exists scored ws ranked wr m w',
    score_moves (init d) (legal_moves (board w)) [] w1 = (Ok scored, ws)
    /\ randomize_step (init d) (sort_desc scored) ws = (Ok ranked, wr)
    /\ random_choice (legal_moves (board w)) (snd (time_time wr)) = (Ok m, w')
    /\ get_move (init d) w = (Ok (Some m), w')
    /\ legal_moves (board w)
       !! N.to_nat (rng wr 0%nat mod N.of_nat (length (legal_moves (board w))))
       = Some m
    /\ m ∈ legal_moves (board w).
Proof.
  intros Eo Hom Hlegal Hover.
  destruct (_get_opening_move_frame _ _ _ _ Eo) as [Hb1 Hc1].
  unfold time_time in Eo, Hb1, Hc1. simpl in Eo, Hb1, Hc1.
  destruct (score_moves_run d (legal_moves (board w)) [] w1)
    as (scored & ws & Es & Hm & Hc2).
  simpl in Es.
  destruct (randomize_step_run (init d) (sort_desc scored) ws)
    as (ranked & wr & Er & Hp & Hc3).
  assert (Hperm : scored ≡ₚ ranked) by (by rewrite <- Hp, sort_desc_perm).
  destruct (random_choice_run (legal_moves (board w)) (snd (time_time wr)) Hlegal)
    as (m & w' & Ec & Hin & _).
  exists scored, ws, ranked, wr, m, w'.
  split; [done|]. split; [done|]. split; [done|].
  assert (Hget : get_move (init d) w = (Ok (Some m), w')).
  { unfold get_move, bind at 1. unfold time_time at 1.
    unfold bind at 1. rewrite Eo, Hom.
    unfold bind at 1, get_board at 1. rewrite Hb1.
    destruct (legal_moves (board w)) as [|m0 legal] eqn:El; [done|].
    unfold bind at 1. rewrite Es.
    unfold bind at 1. rewrite Er.
    destruct ranked as [|best ranked].
    { apply Permutation_nil_r in Hperm. subst scored. done. }
    unfold bind at 1, lift at 1, index. simpl lookup. cbv iota.
    assert (Hnow : clock wr 0%nat = clock w 1%nat) by (by rewrite Hc3, Hc2, Hc1).
    unfold bind at 1, time_time at 1. rewrite Hnow.
    assert (Qle_bool (clock w 1%nat - clock w 0%nat) (time_limit (init d)) = false)
      as ->.
    { apply not_true_is_false. rewrite Qle_bool_iff.
      apply Qlt_not_le. pose proof (time_limit_below_double d). lra. }
    change (negb false) with true. cbv beta iota. unfold bind at 1.
    unfold time_time in Ec. cbn [snd] in Ec. rewrite Ec. reflexivity. }
  split; [done|]. split; [|done].
  revert Ec. destruct (legal_moves (board w)) as [|m0 legal]; [done|].
  unfold random_choice, bind, randbelow, next_raw, ret, lift, index, time_time.
  simpl.
  destruct (_ !! _) as [x|]; [|done]. by intros [= -> _].
Qed.

(** C10. [_add_randomness] does not raise and returns a permutation of
    its input: no candidate is lost, repeated or invented, and the
    entry selected afterwards (the first one) is one of the input. *)
Theorem add_randomness_permutes self (scored_moves : list (Q * Move)) w :
  exists out w',
    _add_randomness self scored_moves w = (Ok out, w')
    /\ scored_moves ≡ₚ out
    /\ (forall best, out !! 0%nat = Some best -> best ∈ scored_moves).
Proof.
  destruct (_add_randomness_run self scored_moves w) as (out & w' & E & Hp & _).
  exists out, w'. split; [done|]. split; [done|].
  intros best Hbest. rewrite Hp. by eapply list_elem_of_lookup_2.
Qed.

(** ** How the features read the board after the push *)

Lemma material_loop_sides (items : list (Square * Piece)) : forall score : Z,
  material_loop items score =
  (score + side_material WHITE items - side_material BLACK items)%Z.
Proof.
  induction items as [|[sq piece] rest IH]; intros score; simpl.
  - lia.
  - rewrite IH. destruct (color piece); simpl; lia.
Qed.

Lemma _evaluate_material_sides b :
  _evaluate_material b =
  (side_material WHITE (piece_map b) - side_material BLACK (piece_map b))%Z.
Proof. unfold _evaluate_material. rewrite material_loop_sides. lia. Qed.

(** The square a piece has left is empty after the push, so the
    development test finds no piece there. *)
Lemma development_bonus_after_push self b (move : Move) :
  piece_at (push b move) (from_square move) = None ->
  development_bonus self (push b move) move = Ok 0.
Proof.
  intros Hempty. unfold development_bonus, _is_development_move.
  by rewrite Hempty.
Qed.

(** After the push it is the opponent's turn, so the test for "white
    just moved" holds when black did. *)
Lemma _is_aggressive_move_after_push b (move : Move) :
  turn (push b move) = opposite (turn b) ->
  _is_aggressive_move (push b move) move =
  match turn b with
  | WHITE => Nat.ltb (square_rank (to_square move)) (square_rank (from_square move))
  | BLACK => Nat.ltb (square_rank (from_square move)) (square_rank (to_square move))
  end.
Proof.
  intros Hturn. unfold _is_aggressive_move. rewrite Hturn.
  by destruct (turn b).
Qed.

(** C7 (amended). For a move that does not mate, the score of the [try]
    body is the sum of the bonuses, of the material of the white pieces
    minus that of the black pieces on the board after the move, whoever
    moved, and of the positional term. *)
Theorem material_term_is_white_minus_black (d : Z) (b : Board) (move : Move) :
  is_checkmate (push b move) = false ->
  exists chk cap dev cen cas agg,
    check_bonus (init d) (push b move) = Ok chk
    /\ capture_bonus (init d) (push b move) move = Ok cap
    /\ development_bonus (init d) (push b move) move = Ok dev
    /\ center_bonus (init d) move = Ok cen
    /\ castling_bonus (init d) move = Ok cas
    /\ aggression_bonus (init d) (push b move) move = Ok agg
    /\ score_body (init d) (push b move) move =
       Ok (inr (0 + chk + cap + dev + cen + cas + agg
                + queen_bonus (push b move) move
                + inject_Z (side_material WHITE (piece_map (push b move))
                            - side_material BLACK (piece_map (push b move)))
                + _evaluate_position (push b move))).
Proof.
  intros Hmate. unfold score_body. rewrite Hmate.
  destruct (check_bonus_init d (push b move)) as (chk & Hchk & _).
  destruct (capture_bonus_init d (push b move) move) as (cap & Hcap & _).
  destruct (development_bonus_init d (push b move) move) as (dev & Hdev & _).
  destruct (center_bonus_init d move) as (cen & Hcen & _).
  destruct (castling_bonus_init d move) as (cas & Hcas & _).
  destruct (aggression_bonus_init d (push b move) move) as (agg & Hagg & _).
  exists chk, cap, dev, cen, cas, agg.
  rewrite Hchk, Hcap, Hdev, Hcen, Hcas, Hagg. simpl.
  by rewrite _evaluate_material_sides.
Qed.

Lemma randomize_step_eq self (scored_moves : list (Q * Move)) w :
  randomize_step self scored_moves w =
  if (difficulty self <? 7)%Z
  then shuffle_top5 scored_moves w
  else (Ok scored_moves, w).
Proof.
  unfold randomize_step.
  destruct (difficulty self <? 7)%Z eqn:Hd; [|done].
  apply Z.ltb_lt in Hd.
  unfold _add_randomness, shuffle_top5.
  assert ((9 <=? difficulty self)%Z = false) as -> by (apply Z.leb_gt; lia).
  assert (take (5 `min` length scored_moves) scored_moves = take 5 scored_moves)
    as ->.
  { destruct (decide (5 <= length scored_moves)%nat).
    - by rewrite Nat.min_l.
    - rewrite Nat.min_r by lia. rewrite !take_ge by lia. done. }
  unfold bind.
  destruct (random_shuffle (take 5 scored_moves) w) as [[top|e] w']; [|done].
  destruct (5 <? length scored_moves)%nat eqn:E; [done|].
  apply Nat.ltb_ge in E. rewrite drop_ge by done. by rewrite app_nil_r.
Qed.

Lemma score_moves_clock self (moves : list Move) : forall (acc : list (Q * Move)) w r w',
  score_moves self moves acc w = (r, w') -> clock w' = clock w.
Proof.
  induction moves as [|move rest IH]; intros acc w r w'; simpl.
  - unfold ret. by intros [= _ <-].
  - unfold bind.
    pose proof (_evaluate_move_clock self move w) as Hc.
    destruct (_evaluate_move self move w) as [[score|e] w1]; simpl in Hc.
    + intros E. apply IH in E. congruence.
    + intros [= _ <-]. done.
Qed.

Lemma score_moves_moves self (moves : list Move) :
  forall (acc scored : list (Q * Move)) w w',
    score_moves self moves acc w = (Ok scored, w') ->
    map snd scored = map snd acc ++ moves.
Proof.
  induction moves as [|move rest IH]; intros acc scored w w'; simpl.
  - unfold ret. intros [= <- _]. by rewrite app_nil_r.
  - unfold bind.
    destruct (_evaluate_move self move w) as [[score|e] w1]; [|done].
    intros E. apply IH in E. rewrite E, map_app. simpl.
    by rewrite <- app_assoc.
Qed.

(** From difficulty 7 on and within the time budget, [get_move] returns
    the first entry of the sorted scores and draws nothing after the
    scoring. *)
Lemma get_move_top_ranked self w om w1 (scored : list (Q * Move)) w2 :
  (7 <= difficulty self)%Z ->
  _get_opening_move self (snd (time_time w)) = (Ok om, w1) ->
  truthy om = false ->
  legal_moves (board w) <> [] ->
  score_moves self (legal_moves (board w)) [] w1 = (Ok scored, w2) ->
  clock w 1%nat - clock w 0%nat <= time_limit self ->
  exists best w3,
    head (sort_desc scored) = Some best
    /\ get_move self w = (Ok (Some (snd best)), w3)
    /\ rng w3 = rng w2.
Proof.
  intros Hd Eo Hom Hlegal Es Hbudget.
  destruct (_get_opening_move_frame _ _ _ _ Eo) as [Hb1 Hc1].
  pose proof (score_moves_clock _ _ _ _ _ _ Es) as Hc2.
  pose proof (score_moves_moves _ _ _ _ _ _ Es) as Hm. simpl in Hm.
  unfold get_move, bind at 1. unfold time_time at 1.
  unfold bind at 1. unfold time_time in Eo, Hb1, Hc1. simpl in Eo, Hb1, Hc1.
  rewrite Eo, Hom. unfold bind at 1, get_board at 1. rewrite Hb1.
  destruct (legal_moves (board w)) as [|m0 legal] eqn:El; [done|].
  unfold bind at 1. rewrite Es.
  unfold bind at 1. rewrite randomize_step_eq.
  assert ((difficulty self <? 7)%Z = false) as -> by (apply Z.ltb_ge; lia).
  pose proof (sort_desc_perm scored) as Hp.
  destruct (sort_desc scored) as [|best ranked].
  { apply Permutation_nil_l in Hp. subst scored. done. }
  exists best, {| board := board w2; rng := rng w2;
                  clock := fun n => clock w2 (S n) |}.
  split; [done|]. split; [|done].
  unfold bind at 1, lift at 1, index. simpl lookup. cbv iota.
  unfold bind at 1, time_time at 1. rewrite Hc2, Hc1.
  assert (Qle_bool (clock w 1%nat - clock w 0%nat) (time_limit self) = true)
    as -> by (by apply Qle_bool_iff).
  reflexivity.
Qed.

(** C8 (amended). The gate in [get_move] runs the Randomize step
    (shuffle the first five of the ranking, keep the rest) exactly when
    the difficulty is below 7.  From 7 on the ranking is left as it is,
    no random draw is consumed, and [get_move], when it reaches the
    selection within the time budget, returns the top of the sorted
    scores. *)
Theorem randomize_step_gate self :
  (forall (scored_moves : list (Q * Move)) w,
     randomize_step self scored_moves w =
     if (difficulty self <? 7)%Z
     then shuffle_top5 scored_moves w
     else (Ok scored_moves, w))
  /\ (forall w om w1 (scored : list (Q * Move)) w2,
        (7 <= difficulty self)%Z ->
        _get_opening_move self (snd (time_time w)) = (Ok om, w1) ->
        truthy om = false ->
        legal_moves (board w) <> [] ->
        score_moves self (legal_moves (board w)) [] w1 = (Ok scored, w2) ->
        clock w 1%nat - clock w 0%nat <= time_limit self ->
        exists best w3,
          head (sort_desc scored) = Some best
          /\ get_move self w = (Ok (Some (snd best)), w3)
          /\ rng w3 = rng w2).
Proof.
  split.
  - apply randomize_step_eq.
  - apply get_move_top_ranked.
Qed.

End EngineFacts.

(** ** The reduced rules engine meets the contract of the rules library *)

Section MiniChessFacts.

Import MiniChess.

Lemma m_pop_push (b : MBoard) (m : Move) : pop (push b m) = b.
Proof.
  destruct b as [ps c h]. unfold pop, push; simpl.
  unfold m_pop, m_push; simpl. by destruct c.
Qed.

Lemma m_turn_push (b : MBoard) (m : Move) : turn (push b m) = opposite (turn b).
Proof. reflexivity. Qed.

Lemma m_parse_san_legal (b : MBoard) (san : string) (m : Move) :
  parse_san b san = Some m -> m ∈ legal_moves b.
Proof.
  unfold parse_san; simpl. unfold m_parse_san.
  destruct (match filter _ (list_ascii_of_string san) with
            | [] => _ | _ :: _ => _ end) as [pt rest].
  destruct (reverse rest) as [|rk [|fl hint]]; [done|done|].
  destruct (coord_of 97 fl) as [f|]; [|done].
  destruct (coord_of 49 rk) as [r|]; [|done].
  destruct (filter _ (m_legal_moves b)) as [|m' [|]] eqn:E; [done| |done].
  intros [= <-].
  assert (Hin : m' ∈ filter
            (fun m0 => san_matches b pt (reverse hint) (square_of f r) m0 = true)
            (m_legal_moves b)) by (rewrite E; apply list_elem_of_here).
  apply list_elem_of_filter in Hin. tauto.
Qed.

(** ** Runs on concrete positions *)

(** C1, witness: from the initial position the book answers [e2e3]. *)
Lemma get_move_returns_legal_move_or_none_witness :
  (forall (b : MBoard) san m, parse_san b san = Some m -> m ∈ legal_moves b)
  /\ exists r w',
       get_move (init 7) (world starting_board 0 slow_clock) = (Ok r, w')
       /\ (legal_moves starting_board = [] -> r = None)
       /\ (legal_moves starting_board <> [] ->
           exists m, r = Some m /\ m ∈ legal_moves starting_board).
Proof.
  split; [exact m_parse_san_legal|].
  apply (get_move_returns_legal_move_or_none 7 (world starting_board 0 slow_clock)).
  exact m_parse_san_legal.
Defined.

Example get_move_initial_position :
  fst (get_move (init 7) (world starting_board 0 slow_clock))
  = Ok (Some (mkMove 12%nat 20%nat None None)).
Proof. vm_compute. reflexivity. Qed.

Example get_move_mated_position :
  legal_moves (push back_rank_board Ra8) = []
  /\ fst (get_move (init 7) (world (push back_rank_board Ra8) 0 slow_clock)) = Ok None.
Proof. split; vm_compute; reflexivity. Qed.

(** C2, witness: [Ra8] mates on the back rank, [Kf1] does not. *)
Lemma checkmate_score_dominates_witness :
  exists cw s_mate s_other,
    getitem (tactical_weights (init 5)) "checkmate" = Ok cw
    /\ fst (_evaluate_move (init 5) Ra8 (world back_rank_board (2 ^ 52) slow_clock))
       = Ok s_mate
    /\ s_mate = 1000 + cw * 100
    /\ fst (_evaluate_move (init 5) Kf1 (world back_rank_board (2 ^ 52) slow_clock))
       = Ok s_other
    /\ s_other < s_mate.
Proof.
  eapply (checkmate_score_dominates 5
            (world back_rank_board (2 ^ 52) slow_clock)
            (world back_rank_board (2 ^ 52) slow_clock) Ra8 Kf1).
  - vm_compute. reflexivity.
  - vm_compute. reflexivity.
  - vm_compute. lia.
  - vm_compute. lia.
  - reflexivity.
  - vm_compute. reflexivity.
Defined.

(** C3, witness. *)
Lemma evaluate_move_restores_position_witness :
  pop (push starting_board Nf3) = starting_board
  /\ board (snd (_evaluate_move (init 5) Nf3 (world starting_board 0 slow_clock)))
     = starting_board.
Proof.
  split; [reflexivity|].
  apply (evaluate_move_restores_position (init 5) Nf3
           (world starting_board 0 slow_clock)).
  reflexivity.
Defined.

(** The three exits of the [try] body, each with the position restored. *)
Example evaluate_move_restores_after_mate :
  let r := _evaluate_move (init 5) Ra8 (world back_rank_board 0 slow_clock) in
  fst r = Ok (1000 + 1.0 * 100) /\ board (snd r) = back_rank_board.
Proof. split; vm_compute; reflexivity. Qed.

Example evaluate_move_restores_after_exception :
  let r := _evaluate_move unweighted_engine e2e4 (world starting_board 0 slow_clock) in
  fst r = Raise (KeyError "center_control") /\ board (snd r) = starting_board.
Proof. split; vm_compute; reflexivity. Qed.

(** C4: a knight move to an empty square is given the "capture" bonus
    of a knight, [0.7 * 3 * 10 = 21]: after the push the piece on the
    destination square is the piece that moved. *)
Theorem capture_bonus_on_quiet_move :
  Nf3 ∈ legal_moves starting_board
  /\ piece_at starting_board (to_square Nf3) = None
  /\ piece_at (push starting_board Nf3) (to_square Nf3) = Some (mkPiece KNIGHT WHITE)
  /\ exists q, capture_bonus (init 5) (push starting_board Nf3) Nf3 = Ok q /\ q == 21.
Proof.
  split; [apply (bool_decide_unpack _); vm_compute; exact I|].
  split; [reflexivity|]. split; [reflexivity|].
  eexists. split; [vm_compute; reflexivity|]. reflexivity.
Qed.

(** C5: the knight leaving g1 is a development move on the board before
    the push, and receives no development bonus, because the evaluator
    asks on the board after the push, where g1 is empty. *)
Theorem development_bonus_never_given :
  Nf3 ∈ legal_moves starting_board
  /\ piece_at starting_board (from_square Nf3) = Some (mkPiece KNIGHT WHITE)
  /\ from_square Nf3 = G1
  /\ _is_development_move starting_board Nf3 = true
  /\ development_bonus (init 5) (push starting_board Nf3) Nf3 = Ok 0.
Proof.
  split; [apply (bool_decide_unpack _); vm_compute; exact I|].
  repeat split; vm_compute; reflexivity.
Qed.

(** C6: white's pawn advancing from the second to the fourth rank
    receives no aggression bonus: after the push [board.turn] is black,
    and the test compares the ranks the other way round. *)
Theorem aggression_bonus_wrong_side :
  e2e4 ∈ legal_moves starting_board
  /\ turn starting_board = WHITE
  /\ (square_rank (from_square e2e4) < square_rank (to_square e2e4))%nat
  /\ aggression_bonus (init 5) (push starting_board e2e4) e2e4 = Ok 0.
Proof.
  split; [apply (bool_decide_unpack _); vm_compute; exact I|].
  split; [reflexivity|]. split; [vm_compute; lia|]. vm_compute. reflexivity.
Qed.

(** C7, counterexample: black moves with a white queen on the board;
    the material term is +9, not the -9 of a balance relative to the
    side that moved. *)
Lemma material_term_not_mover_relative :
  Kh8 ∈ legal_moves queen_up_board
  /\ _evaluate_material (push queen_up_board Kh8)
     <> mover_relative_material (turn queen_up_board)
          (piece_map (push queen_up_board Kh8)).
Proof.
  split; [apply (bool_decide_unpack _); vm_compute; exact I|].
  vm_compute. discriminate.
Qed.

(** C7, witness of the amended statement. *)
Lemma material_term_is_white_minus_black_witness :
  is_checkmate (push queen_up_board Kh8) = false
  /\ exists chk cap dev cen cas agg,
    check_bonus (init 5) (push queen_up_board Kh8) = Ok chk
    /\ capture_bonus (init 5) (push queen_up_board Kh8) Kh8 = Ok cap
    /\ development_bonus (init 5) (push queen_up_board Kh8) Kh8 = Ok dev
    /\ center_bonus (init 5) Kh8 = Ok cen
    /\ castling_bonus (init 5) Kh8 = Ok cas
    /\ aggression_bonus (init 5) (push queen_up_board Kh8) Kh8 = Ok agg
    /\ score_body (init 5) (push queen_up_board Kh8) Kh8 =
       Ok (inr (0 + chk + cap + dev + cen + cas + agg
                + queen_bonus (push queen_up_board Kh8) Kh8
                + inject_Z (side_material WHITE (piece_map (push queen_up_board Kh8))
                            - side_material BLACK (piece_map (push queen_up_board Kh8)))
                + _evaluate_position (push queen_up_board Kh8))).
Proof.
  split; [reflexivity|].
  apply (material_term_is_white_minus_black 5 queen_up_board Kh8).
  reflexivity.
Defined.

(** C8, counterexample: at difficulty 8 the ranking is left as it is,
    where a Randomize step gated on "difficulty < 9" would have
    exchanged its two entries. *)
Lemma randomize_step_skipped_at_8 :
  randomize_step (init 8) two_ranked (world starting_board 0 slow_clock)
  <> (if (difficulty (init 8) <? 9)%Z
      then shuffle_top5 two_ranked (world starting_board 0 slow_clock)
      else (Ok two_ranked, world starting_board 0 slow_clock)).
Proof.
  intros Heq. apply (f_equal fst) in Heq. vm_compute in Heq. discriminate Heq.
Qed.

(** C8, witness of the amended statement: difficulty 9, within the
    budget, on the back-rank position. *)
Lemma randomize_step_gate_witness :
  exists scored (w2 : World (Board := MBoard)) best w3,
    head (sort_desc scored) = Some best
    /\ get_move (init 9) (world back_rank_board 7 (fun _ => 0))
       = (Ok (Some (snd best)), w3)
    /\ rng w3 = rng w2.
Proof.
  do 2 eexists.
  eapply (proj2 (randomize_step_gate (init 9))
            (world back_rank_board 7 (fun _ => 0))).
  - vm_compute. discriminate.
  - vm_compute. reflexivity.
  - reflexivity.
  - vm_compute. discriminate.
  - vm_compute. reflexivity.
  - vm_compute. discriminate.
Defined.

Example get_move_mates_at_difficulty_9 :
  fst (get_move (init 9) (world back_rank_board 7 (fun _ => 0))) = Ok (Some Ra8).
Proof. vm_compute. reflexivity. Qed.

Example get_move_mates_at_difficulty_8 :
  fst (get_move (init 8) (world back_rank_board (2 ^ 52) (fun _ => 0))) = Ok (Some Ra8).
Proof. vm_compute. reflexivity. Qed.

(** At difficulty 5 the same call shuffles the five best and returns
    another move than the mate at the top of the ranking. *)
Example get_move_shuffles_at_difficulty_5 :
  fst (get_move (init 5) (world back_rank_board (2 ^ 52) (fun _ => 0)))
  = Ok (Some (mkMove 0%nat 2%nat None None)).
Proof. vm_compute. reflexivity. Qed.

(** C9, witness: no book move applies on the back-rank position, and
    the clock shows one second between the two readings. *)
Lemma budget_overrun_returns_random_legal_move_witness :
  double_0_1 < slow_clock 1 - slow_clock 0
  /\ exists scored ws ranked wr m w',
       score_moves (init 5) (legal_moves back_rank_board) []
         (snd (_get_opening_move (init 5)
                 (snd (time_time (world back_rank_board 3 slow_clock)))))
       = (Ok scored, ws)
       /\ randomize_step (init 5) (sort_desc scored) ws = (Ok ranked, wr)
       /\ random_choice (legal_moves back_rank_board) (snd (time_time wr))
          = (Ok m, w')
       /\ get_move (init 5) (world back_rank_board 3 slow_clock) = (Ok (Some m), w')
       /\ legal_moves back_rank_board
          !! N.to_nat (rng wr 0%nat
                       mod N.of_nat (length (legal_moves back_rank_board)))
          = Some m
       /\ m ∈ legal_moves back_rank_board.
Proof.
  split; [vm_compute; reflexivity|].
  eapply (budget_overrun_returns_random_legal_move 5
            (world back_rank_board 3 slow_clock)).
  - vm_compute. reflexivity.
  - reflexivity.
  - vm_compute. discriminate.
  - vm_compute. reflexivity.
Defined.

Example get_move_over_budget :
  fst (get_move (init 9) (world back_rank_board 3 slow_clock))
  = Ok (Some (mkMove 0%nat 4%nat None None)).
Proof. vm_compute. reflexivity. Qed.

End MiniChessFacts.

(** * Further properties *)

(** ** The ranking is a stable sort *)

Lemma insert_desc_stable {A} (k : Q) (x : Q * A) (l : list (Q * A)) :
  filter (fun e => Qeq_bool (fst e) k = true) (insert_desc x l)
  = filter (fun e => Qeq_bool (fst e) k = true) (x :: l).
Proof.
  induction l as [|y r IH]; simpl; [done|].
  destruct (Qle_bool (fst y) (fst x)) eqn:E; [done|].
  rewrite filter_cons, IH, !filter_cons.
  destruct (decide (Qeq_bool (fst y) k = true)) as [Hy|Hy]; [|done].
  destruct (decide (Qeq_bool (fst x) k = true)) as [Hx|Hx]; [|done].
  apply Qeq_bool_iff in Hx, Hy.
  assert (Qle_bool (fst y) (fst x) = true); [|congruence].
  apply Qle_bool_iff. rewrite Hx, Hy. apply Qle_refl.
Qed.

Lemma sort_desc_stable {A} (k : Q) (l : list (Q * A)) :
  filter (fun e => Qeq_bool (fst e) k = true) (sort_desc l)
  = filter (fun e => Qeq_bool (fst e) k = true) l.
Proof.
  induction l as [|x l IH]; [done|].
  unfold sort_desc in *. simpl. rewrite insert_desc_stable.
  by rewrite !filter_cons, IH.
Qed.

(** The first entry of the ranking is the first entry of the input
    whose score is not exceeded. *)
Lemma sort_desc_head_first_max {A} (l : list (Q * A)) : forall best,
  head (sort_desc l) = Some best ->
  exists i, l !! i = Some best
    /\ (forall j x, (j < i)%nat -> l !! j = Some x -> fst x < fst best)
    /\ (forall x, x ∈ l -> fst x <= fst best).
Proof.
  induction l as [|x l IH]; intros best; [done|].
  unfold sort_desc in *. simpl.
  destruct (foldr insert_desc [] l) as [|y r] eqn:Es; simpl.
  - intros [= <-].
    assert (l = []) as ->.
    { symmetry. apply Permutation_nil_l. rewrite <- (sort_desc_perm l).
      unfold sort_desc. by rewrite Es. }
    exists 0%nat. split; [done|]. split; [intros; lia|].
    intros x' Hx'. apply list_elem_of_singleton in Hx' as ->. apply Qle_refl.
  - destruct (IH y eq_refl) as (i & Hi & Hbefore & Hmax).
    destruct (Qle_bool (fst y) (fst x)) eqn:E; simpl; intros [= <-].
    + apply Qle_bool_iff in E.
      exists 0%nat. split; [done|]. split; [intros; lia|].
      intros x' Hx'. apply elem_of_cons in Hx' as [->|Hx']; [apply Qle_refl|].
      specialize (Hmax x' Hx'). lra.
    + assert (fst x < fst y).
      { apply Qnot_le_lt. rewrite <- Qle_bool_iff. congruence. }
      exists (S i). split; [done|]. split.
      * intros [|j] x' Hj Hx'; simpl in Hx'.
        -- by injection Hx' as <-.
        -- eapply Hbefore; [|done]. lia.
      * intros x' Hx'. apply elem_of_cons in Hx' as [->|Hx'].
        -- by apply Qlt_le_weak.
        -- by apply Hmax.
Qed.

(** X4. The ranking step orders the candidates by descending score,
    keeps every candidate exactly once, and leaves candidates of equal
    score in the order in which the moves were enumerated. *)
Theorem ranking_is_stable_descending_sort {A} (l : list (Q * A)) :
  StronglySorted (fun a b => fst b <= fst a) (sort_desc l)
  /\ sort_desc l ≡ₚ l
  /\ (forall k : Q,
        filter (fun e => Qeq_bool (fst e) k = true) (sort_desc l)
        = filter (fun e => Qeq_bool (fst e) k = true) l).
Proof.
  split; [apply sort_desc_sorted|]. split; [apply sort_desc_perm|].
  intros k. apply sort_desc_stable.
Qed.

(** ** Further properties of the engine *)

Section EngineMore.

Context {Board : Type} `{Rules Board}.

Implicit Types (w : @World Board) (self : KempBrdyEngine).

(** ** The position across a whole call *)

Lemma bind_board {A B} (c : Py World A) (k : A -> Py World B) :
  (forall w, board (snd (c w)) = board w) ->
  (forall a w, board (snd (k a w)) = board w) ->
  forall w, board (snd (bind c k w)) = board w.
Proof.
  intros Hc Hk w. unfold bind. specialize (Hc w).
  destruct (c w) as [[a|e] w1]; simpl in *.
  - by rewrite Hk.
  - done.
Qed.

Lemma _evaluate_move_undone self move w :
  board (snd (_evaluate_move self move w)) = pop (push (board w) move).
Proof.
  unfold _evaluate_move, bind, board_push, try_finally, get_board, lift, board_pop.
  simpl.
  by destruct (score_body self (push (board w) move) move) as [[v|score]|e].
Qed.

Lemma score_moves_board self (moves : list Move) :
  (forall b m, pop (push b m) = b) ->
  forall (acc : list (Q * Move)) w,
    board (snd (score_moves self moves acc w)) = board w.
Proof.
  intros Hundo. induction moves as [|move rest IH]; intros acc w; simpl; [done|].
  apply bind_board; [|intros; apply IH].
  intros w0. by rewrite _evaluate_move_undone.
Qed.

Lemma random_choice_board {A} (seq : list A) w :
  board (snd (random_choice seq w)) = board w.
Proof.
  destruct (random_choice seq w) as [r w'] eqn:E.
  by destruct (random_choice_frame _ _ _ _ E).
Qed.

Lemma randomize_step_board self (scored : list (Q * Move)) w :
  board (snd (randomize_step self scored w)) = board w.
Proof.
  unfold randomize_step. destruct (difficulty self <? 7)%Z; [|done].
  destruct (_add_randomness_run self scored w) as (out & w' & -> & _ & Hb & _).
  done.
Qed.

Lemma _get_opening_move_board self w :
  board (snd (_get_opening_move self w)) = board w.
Proof.
  destruct (_get_opening_move self w) as [r w'] eqn:E.
  by destruct (_get_opening_move_frame _ _ _ _ E).
Qed.

(** X1. A call of [get_move] hands the position back as it received
    it, whatever it returns or raises and whatever the engine object
    holds, provided the rules library undoes with [pop] what [push]
    did. *)
Theorem get_move_restores_position self w :
  (forall b m, pop (push b m) = b) ->
  board (snd (get_move self w)) = board w.
Proof.
  intros Hundo. revert w. unfold get_move.
  apply bind_board; [done|]. intros start_time.
  apply bind_board; [apply _get_opening_move_board|]. intros om.
  destruct (truthy om); [done|].
  apply bind_board; [done|]. intros b.
  destruct (legal_moves b) as [|m0 legal]; [done|].
  apply bind_board; [intros; by apply score_moves_board|]. intros scored.
  apply bind_board; [apply randomize_step_board|]. intros ranked.
  apply bind_board; [done|]. intros best.
  apply bind_board; [done|]. intros now.
  destruct (negb _); [|done].
  apply bind_board; [apply random_choice_board|done].
Qed.

(** ** What one evaluation returns *)

(** The draw [random.uniform(-5, 5)] as a function of the raw value read
    from the tape. *)
Lemma uniform_draw_range (r : N) :
  -5 <= -5 + (5 - -5) * (Z.of_N (r mod 2 ^ 53) # 2 ^ 53)
  /\ -5 + (5 - -5) * (Z.of_N (r mod 2 ^ 53) # 2 ^ 53) < 5.
Proof.
  assert (Hr : (r mod 2 ^ 53 < 2 ^ 53)%N) by (by apply N.mod_lt).
  set (k := (r mod 2 ^ 53)%N) in *.
  assert (H0 : 0 <= Z.of_N k # 2 ^ 53) by (unfold Qle; simpl; lia).
  assert (H1 : Z.of_N k # 2 ^ 53 < 1) by (unfold Qlt; simpl; lia).
  split; lra.
Qed.

Lemma _evaluate_move_run self move w :
  _evaluate_move self move w =
  match score_body self (push (board w) move) move with
  | Ok (inl v) =>
      (Ok v, {| board := pop (push (board w) move); rng := rng w; clock := clock w |})
  | Ok (inr score) =>
      (Ok (score + (-5 + (5 - -5) * (Z.of_N (rng w 0%nat mod 2 ^ 53) # 2 ^ 53))
                   * inject_Z (11 - difficulty self)),
       {| board := pop (push (board w) move); rng := fun n => rng w (S n);
          clock := clock w |})
  | Raise e =>
      (Raise e, {| board := pop (push (board w) move); rng := rng w;
                   clock := clock w |})
  end.
Proof.
  unfold _evaluate_move, bind, board_push, try_finally, get_board, lift, board_pop.
  simpl.
  by destruct (score_body self (push (board w) move) move) as [[v|score]|e].
Qed.



(** ** Scoring all moves *)

(** What the scoring loop of the engine of [__init__] yields on a board
    that [pop] restores: one entry per move, in order; 1100 for a move
    that mates, and a bounded score otherwise. *)
Lemma score_moves_init_scores (d : Z) (moves : list Move) :
  (forall b m, pop (push b m) = b) ->
  (d <= 11)%Z ->
  forall (acc : list (Q * Move)) w,
  exists scored w',
    score_moves (init d) moves acc w = (Ok (acc ++ scored), w')
    /\ map snd scored = moves
    /\ board w' = board w
    /\ Forall (fun e =>
         if is_checkmate (push (board w) (snd e))
         then fst e == 1100
         else fst e <= 175.8 + inject_Z (_evaluate_material (push (board w) (snd e)))
                       + _evaluate_position (push (board w) (snd e))
                       + 5 * inject_Z (11 - d)) scored.
Proof.
  intros Hundo Hd. induction moves as [|move rest IH]; intros acc w.
  - exists [], w. simpl. rewrite app_nil_r. by repeat split.
  - simpl. unfold bind at 1.
    pose proof (_evaluate_move_run (init d) move w) as Hrun.
    pose proof (score_body_init d (push (board w) move) move) as Hbody.
    destruct (uniform_draw_range (rng w 0%nat)) as [Hu1 Hu2].
    set (u := -5 + (5 - -5) * (Z.of_N (rng w 0%nat mod 2 ^ 53) # 2 ^ 53)) in *.
    simpl in Hrun. rewrite Hundo in Hrun.
    destruct (is_checkmate (push (board w) move)) eqn:Hmate.
    + rewrite Hbody in Hrun. rewrite Hrun.
      destruct (IH (acc ++ [(1000 + 1.0 * 100, move)])
                  {| board := board w; rng := rng w; clock := clock w |})
        as (scored & w' & -> & Hm & Hb & Hall).
      exists ((1000 + 1.0 * 100, move) :: scored), w'.
      split; [by rewrite <- app_assoc|].
      split; [simpl; by rewrite Hm|]. split; [done|].
      constructor; [|done]. simpl. rewrite Hmate. reflexivity.
    + destruct Hbody as (score & Hs & Hbound). rewrite Hs in Hrun.
      rewrite Hrun.
      destruct (IH (acc ++ [(score + u * inject_Z (11 - d), move)])
                  {| board := board w; rng := fun n => rng w (S n);
                     clock := clock w |})
        as (scored & w' & -> & Hm & Hb & Hall).
      eexists (_ :: scored), w'.
      split; [by rewrite <- app_assoc|].
      split; [simpl; by rewrite Hm|]. split; [done|].
      constructor; [|done]. simpl. rewrite Hmate.
      assert (0 <= inject_Z (11 - d)).
      { change 0 with (inject_Z 0). rewrite <- Zle_Qle. lia. }
      assert (u * inject_Z (11 - d) <= 5 * inject_Z (11 - d)).
      { apply Qmult_le_compat_r; [by apply Qlt_le_weak|done]. }
      lra.
Qed.

(** X3. The scoring loop of the engine of [__init__] never raises and
    scores every move it is given exactly once, in the order given; on
    a board that [pop] restores it leaves the position as it was. *)
Theorem score_moves_scores_each_move_once (d : Z) (moves : list Move) w :
  (forall b m, pop (push b m) = b) ->
  exists scored w',
    score_moves (init d) moves [] w = (Ok scored, w')
    /\ map snd scored = moves
    /\ board w' = board w.
Proof.
  intros Hundo.
  destruct (score_moves_run d moves [] w) as (scored & w' & E & Hm & _).
  exists scored, w'. split; [done|]. split; [done|].
  pose proof (score_moves_board (init d) moves Hundo [] w) as Hb.
  by rewrite E in Hb.
Qed.

(** ** Selection *)

Lemma _add_randomness_tail self (l : list (Q * Move)) w :
  exists top w',
    _add_randomness self l w = (Ok (top ++ drop 5 l), w')
    /\ top ≡ₚ take 5 l.
Proof.
  unfold _add_randomness.
  destruct (9 <=? difficulty self)%Z.
  { exists (take 5 l), w. by rewrite take_drop. }
  assert (take (5 `min` length l) l = take 5 l) as ->.
  { destruct (decide (5 <= length l)%nat).
    - by rewrite Nat.min_l.
    - rewrite Nat.min_r by lia. rewrite !take_ge by lia. done. }
  unfold bind.
  destruct (random_shuffle_run (take 5 l) w) as (top & w' & -> & Hp & _).
  exists top, w'. split; [|done].
  destruct (5 <? length l)%nat eqn:E; [done|].
  apply Nat.ltb_ge in E. rewrite drop_ge by done. by rewrite app_nil_r.
Qed.

Lemma randomize_step_tail self (l : list (Q * Move)) w :
  exists top w',
    randomize_step self l w = (Ok (top ++ drop 5 l), w')
    /\ top ≡ₚ take 5 l.
Proof.
  unfold randomize_step. destruct (difficulty self <? 7)%Z.
  - apply _add_randomness_tail.
  - exists (take 5 l), w. by rewrite take_drop.
Qed.

(** X5. [_add_randomness] only rearranges the first five entries: the
    result is a permutation of the first five followed by the rest of
    the input, untouched and in place, at every difficulty.  It never
    raises. *)
Theorem add_randomness_touches_first_five_only self (l : list (Q * Move)) w :
  exists top w',
    _add_randomness self l w = (Ok (top ++ drop 5 l), w')
    /\ top ≡ₚ take 5 l
    /\ (forall i, (5 <= i)%nat -> (top ++ drop 5 l) !! i = l !! i).
Proof.
  destruct (_add_randomness_tail self l w) as (top & w' & E & Hp).
  exists top, w'. split; [done|]. split; [done|].
  intros i Hi.
  assert (Hlen : length top = length (take 5 l)) by (by rewrite Hp).
  rewrite length_take in Hlen.
  destruct (decide (5 <= length l)%nat) as [Hl|Hl].
  - rewrite Nat.min_l in Hlen by done.
    rewrite lookup_app_r by lia. rewrite lookup_drop. f_equal. lia.
  - rewrite lookup_app_r by lia. rewrite lookup_drop.
    rewrite !lookup_ge_None_2; [done|lia|lia].
Qed.

(** [get_move] from the scores to the returned move, within the time
    budget. *)
Lemma get_move_selection self w om w1 (scored : list (Q * Move)) w2 :
  _get_opening_move self (snd (time_time w)) = (Ok om, w1) ->
  truthy om = false ->
  legal_moves (board w) <> [] ->
  score_moves self (legal_moves (board w)) [] w1 = (Ok scored, w2) ->
  clock w 1%nat - clock w 0%nat <= time_limit self ->
  exists top best w3,
    top ≡ₚ take 5 (sort_desc scored)
    /\ head (top ++ drop 5 (sort_desc scored)) = Some best
    /\ best ∈ top
    /\ get_move self w = (Ok (Some (snd best)), w3).
Proof.
  intros Eo Hom Hlegal Es Hbudget.
  destruct (_get_opening_move_frame _ _ _ _ Eo) as [Hb1 Hc1].
  pose proof (score_moves_clock _ _ _ _ _ _ Es) as Hc2.
  pose proof (score_moves_moves _ _ _ _ _ _ Es) as Hm. simpl in Hm.
  unfold get_move, bind at 1. unfold time_time at 1.
  unfold bind at 1. unfold time_time in Eo, Hb1, Hc1. simpl in Eo, Hb1, Hc1.
  rewrite Eo, Hom. unfold bind at 1, get_board at 1. rewrite Hb1.
  destruct (legal_moves (board w)) as [|m0 legal] eqn:El; [done|].
  unfold bind at 1. rewrite Es.
  unfold bind at 1.
  destruct (randomize_step_tail self (sort_desc scored) w2)
    as (top & w3 & E3 & Hp).
  pose proof (randomize_step_run self (sort_desc scored) w2)
    as (out & w3' & E3' & _ & Hc3).
  rewrite E3 in E3'. injection E3' as <- <-. rewrite E3.
  pose proof (sort_desc_perm scored) as Hps.
  destruct top as [|best top].
  { apply Permutation_nil_l in Hp.
    destruct (sort_desc scored) as [|s0 sorted]; [|done].
    apply Permutation_nil_l in Hps. subst scored. done. }
  exists (best :: top), best,
    {| board := board w3; rng := rng w3; clock := fun n => clock w3 (S n) |}.
  split; [done|]. split; [done|]. split; [apply list_elem_of_here|].
  unfold bind at 1, lift at 1, index. simpl lookup. cbv iota.
  unfold bind at 1, time_time at 1. rewrite Hc3, Hc2, Hc1.
  assert (Qle_bool (clock w 1%nat - clock w 0%nat) (time_limit self) = true)
    as -> by (by apply Qle_bool_iff).
  reflexivity.
Qed.

(** X6. Within the time budget, and when the book gave no move, the
    move [get_move] returns is one of the five best-scored legal moves
    of this call, at every difficulty. *)
Theorem get_move_returns_one_of_top_five self w om w1 (scored : list (Q * Move)) w2 :
  _get_opening_move self (snd (time_time w)) = (Ok om, w1) ->
  truthy om = false ->
  legal_moves (board w) <> [] ->
  score_moves self (legal_moves (board w)) [] w1 = (Ok scored, w2) ->
  clock w 1%nat - clock w 0%nat <= time_limit self ->
  exists best w3,
    get_move self w = (Ok (Some (snd best)), w3)
    /\ best ∈ take 5 (sort_desc scored)
    /\ snd best ∈ legal_moves (board w).
Proof.
  intros Eo Hom Hlegal Es Hbudget.
  destruct (get_move_selection self w om w1 scored w2 Eo Hom Hlegal Es Hbudget)
    as (top & best & w3 & Hp & _ & Hin & Hget).
  exists best, w3. split; [done|].
  rewrite Hp in Hin. split; [done|].
  pose proof (score_moves_moves _ _ _ _ _ _ Es) as Hm. simpl in Hm.
  rewrite <- Hm. apply list_elem_of_fmap_2.
  rewrite <- (sort_desc_perm scored).
  eapply (subseteq_take 5). done.
Qed.

(** X7. From difficulty 7 on, within the time budget and when the book
    gave no move, [get_move] returns the legal move with the highest
    score of this call; among equal scores, the one enumerated first. *)
Theorem get_move_returns_first_best self w om w1 (scored : list (Q * Move)) w2 :
  (7 <= difficulty self)%Z ->
  _get_opening_move self (snd (time_time w)) = (Ok om, w1) ->
  truthy om = false ->
  legal_moves (board w) <> [] ->
  score_moves self (legal_moves (board w)) [] w1 = (Ok scored, w2) ->
  clock w 1%nat - clock w 0%nat <= time_limit self ->
  exists i best w3,
    get_move self w = (Ok (Some (snd best)), w3)
    /\ scored !! i = Some best
    /\ legal_moves (board w) !! i = Some (snd best)
    /\ (forall j x, (j < i)%nat -> scored !! j = Some x -> fst x < fst best)
    /\ (forall x, x ∈ scored -> fst x <= fst best).
Proof.
  intros Hd Eo Hom Hlegal Es Hbudget.
  destruct (get_move_top_ranked self w om w1 scored w2 Hd Eo Hom Hlegal Es Hbudget)
    as (best & w3 & Hhead & Hget & _).
  destruct (sort_desc_head_first_max scored best Hhead)
    as (i & Hi & Hbefore & Hmax).
  exists i, best, w3. split; [done|]. split; [done|]. split; [|done].
  pose proof (score_moves_moves _ _ _ _ _ _ Es) as Hm. simpl in Hm.
  rewrite <- Hm, list_lookup_fmap, Hi. done.
Qed.

(** X8. Mate in one: from difficulty 7 to 10, within the time budget
    and when the book gave no move, the engine of [__init__] returns a
    move that mates whenever the position has one.  The rules library
    is assumed to restore the board on [pop] and to keep every position
    after a legal move within 64 occupied squares and 218 legal moves. *)
Theorem get_move_plays_mate_in_one (d : Z) w om w1 :
  (7 <= d <= 10)%Z ->
  (forall b m, pop (push b m) = b) ->
  _get_opening_move (init d) (snd (time_time w)) = (Ok om, w1) ->
  truthy om = false ->
  clock w 1%nat - clock w 0%nat <= time_limit (init d) ->
  (exists m, m ∈ legal_moves (board w) /\ is_checkmate (push (board w) m) = true) ->
  (forall m, m ∈ legal_moves (board w) ->
     (length (piece_map (push (board w) m)) <= 64)%nat
     /\ (length (legal_moves (push (board w) m)) <= 218)%nat) ->
  exists m w',
    get_move (init d) w = (Ok (Some m), w')
    /\ m ∈ legal_moves (board w)
    /\ is_checkmate (push (board w) m) = true.
Proof.
  intros Hd Hundo Eo Hom Hbudget (mate & Hmate_in & Hmate) Hbounds.
  destruct (_get_opening_move_frame _ _ _ _ Eo) as [Hb1 _].
  simpl in Hb1.
  destruct (score_moves_init_scores d (legal_moves (board w)) Hundo
              ltac:(lia) [] w1)
    as (scored & w2 & Es & Hm & _ & Hall).
  simpl in Es. rewrite Hb1 in Hall.
  assert (Hlegal : legal_moves (board w) <> []).
  { intros Hnil. rewrite Hnil in Hmate_in. by apply elem_of_nil in Hmate_in. }
  destruct (get_move_top_ranked (init d) w om w1 scored w2
              ltac:(simpl; lia) Eo Hom Hlegal Es Hbudget)
    as (best & w3 & Hhead & Hget & _).
  assert (Hbest_in : best ∈ scored).
  { rewrite <- (sort_desc_perm scored).
    destruct (sort_desc scored); [done|].
    injection Hhead as ->. apply list_elem_of_here. }
  assert (Hbest_legal : snd best ∈ legal_moves (board w)).
  { rewrite <- Hm. by apply list_elem_of_fmap_2. }
  exists (snd best), w3. split; [done|]. split; [done|].
  rewrite <- Hm in Hmate_in.
  apply list_elem_of_fmap in Hmate_in as (e & -> & He).
  pose proof (sort_desc_head_max scored best e Hhead He) as Hmax.
  rewrite Forall_forall in Hall.
  pose proof (Hall e He) as Pe. rewrite Hmate in Pe.
  pose proof (Hall best Hbest_in) as Pb.
  destruct (is_checkmate (push (board w) (snd best))) eqn:Hb; [done|].
  exfalso.
  destruct (Hbounds (snd best) Hbest_legal) as [Hpieces Hmoves].
  pose proof (_evaluate_material_bound (push (board w) (snd best))) as Hmat.
  pose proof (_evaluate_position_bound (push (board w) (snd best))) as Hpos.
  assert (inject_Z (_evaluate_material (push (board w) (snd best))) <= 576).
  { change 576 with (inject_Z 576). rewrite <- Zle_Qle. lia. }
  assert (inject_Z (Z.of_nat (length (legal_moves (push (board w) (snd best)))))
          <= 218).
  { change 218 with (inject_Z 218). rewrite <- Zle_Qle. lia. }
  assert (inject_Z (11 - d) <= 4).
  { change 4 with (inject_Z 4). rewrite <- Zle_Qle. lia. }
  lra.
Qed.

(** ** The bonuses after the push *)

(** X9. Which bonuses can fire: the evaluator reads the board after the
    push, where the origin square is empty, the moved piece stands on
    the destination and the turn has passed.  So the development bonus
    and the queen activity bonus are never added; the capture term is
    added for every move of a piece other than the king, whether or not
    it captured; and the aggression bonus is added exactly when the rank
    moves away from the opponent. *)
Theorem bonuses_after_push (d : Z) (b : Board) (move : Move) (piece : Piece) :
  piece_at (push b move) (from_square move) = None ->
  piece_at (push b move) (to_square move) = Some piece ->
  turn (push b move) = opposite (turn b) ->
  development_bonus (init d) (push b move) move = Ok 0
  /\ queen_bonus (push b move) move = 0
  /\ (exists q, capture_bonus (init d) (push b move) move = Ok q
                /\ (0 < q <-> piece_type piece <> KING))
  /\ (exists q, aggression_bonus (init d) (push b move) move = Ok q
                /\ (0 < q <->
                    match turn b with
                    | WHITE => Nat.ltb (square_rank (to_square move))
                                       (square_rank (from_square move))
                    | BLACK => Nat.ltb (square_rank (from_square move))
                                       (square_rank (to_square move))
                    end = true)).
Proof.
  intros Hfrom Hto Hturn.
  split; [by apply development_bonus_after_push|].
  split; [unfold queen_bonus; by rewrite Hfrom|].
  split.
  - rewrite capture_bonus_init_value, Hto.
    destruct (piece_type piece); eexists; (split; [reflexivity|]);
      (split; [intros Hq; try discriminate; by vm_compute in Hq
              |intros Hk; try done; reflexivity]).
  - unfold aggression_bonus.
    rewrite (_is_aggressive_move_after_push b move Hturn).
    cbn [tactical_weights init]. rewrite init_weight_aggression.
    destruct (match turn b with WHITE => _ | BLACK => _ end); simpl;
      eexists; (split; [reflexivity|]); split; try done; try reflexivity.
Qed.

(** ** The opening book *)

(** X10. A move answered by the opening book is always the rules
    library's reading of a repertoire token: the token at the index of
    the current ply, in one of the lines listed for the side to move,
    and only while at most six moves have been played. *)
Theorem opening_move_comes_from_repertoire self w (m : Move) w' :
  _get_opening_move self w = (Ok (Some m), w') ->
  (length (move_stack (board w)) <= 6)%nat
  /\ exists openings line san,
       getitem (opening_repertoire self)
         (if bool_decide (turn (board w) = WHITE) then "white" else "black")
       = Ok openings
       /\ line ∈ openings
       /\ line !! length (move_stack (board w)) = Some san
       /\ parse_san (board w) san = Some m.
Proof.
  unfold _get_opening_move, bind at 1, get_board.
  destruct (6 <? length (move_stack (board w)))%nat eqn:Hply; [done|].
  apply Nat.ltb_ge in Hply. intros E. split; [done|]. revert E.
  unfold bind at 1, lift at 1.
  assert ((if bool_decide (turn (board w) = WHITE)
           then getitem (opening_repertoire self) "white"
           else getitem (opening_repertoire self) "black")
          = getitem (opening_repertoire self)
              (if bool_decide (turn (board w) = WHITE) then "white" else "black"))
    as -> by (by destruct (bool_decide _)).
  destruct (getitem _ _) as [openings|e]; [|done].
  unfold bind at 1.
  destruct openings as [|o0 openings]; [done|].
  destruct (random_choice_run (o0 :: openings) w ltac:(done))
    as (chosen & w1 & -> & Hin & _).
  destruct (_ <? length chosen)%nat; [|done].
  unfold bind, lift, index.
  destruct (chosen !! _) as [san|] eqn:Esan; [|done].
  destruct (parse_san (board w) san) as [m'|] eqn:Ep; [|done].
  intros [= <- _]. exists (o0 :: openings), chosen, san. done.
Qed.

Lemma init_repertoire_lines (key : string) (openings : list (list string)) :
  getitem init_opening_repertoire key = Ok openings ->
  Forall (fun line => length line = 6%nat) openings.
Proof.
  unfold getitem.
  destruct (decide (key = "white")) as [->|Hw].
  { vm_compute. intros [= <-]. repeat constructor. }
  destruct (decide (key = "black")) as [->|Hb].
  { vm_compute. intros [= <-]. repeat constructor. }
  unfold init_opening_repertoire.
  rewrite !lookup_insert_ne by done. by rewrite lookup_empty.
Qed.

(** X11. The repertoire of [__init__] answers during the first six
    plies only: its lines hold six tokens, so with six moves on the
    stack, which the guard [move_count > 6] still admits, the book
    draws a line and returns nothing. *)
Theorem opening_book_silent_from_sixth_ply (d : Z) w :
  (6 <= length (move_stack (board w)))%nat ->
  fst (_get_opening_move (init d) w) = Ok None.
Proof.
  intros Hply. unfold _get_opening_move, bind at 1, get_board.
  destruct (6 <? _)%nat; [done|].
  unfold bind at 1, lift at 1. cbn [opening_repertoire init].
  assert (exists openings,
    (if bool_decide (turn (board w) = WHITE)
     then getitem init_opening_repertoire "white"
     else getitem init_opening_repertoire "black") = Ok openings
    /\ openings <> []
    /\ Forall (fun line => length line = 6%nat) openings)
    as (openings & -> & Hne & Hlen).
  { destruct (bool_decide _).
    - destruct init_repertoire_white as (openings & E & Hne).
      exists openings. split; [done|]. split; [done|].
      by eapply init_repertoire_lines.
    - destruct init_repertoire_black as (openings & E & Hne).
      exists openings. split; [done|]. split; [done|].
      by eapply init_repertoire_lines. }
  unfold bind at 1.
  destruct (random_choice_run openings w Hne) as (chosen & w1 & -> & Hin & _).
  rewrite Forall_forall in Hlen. rewrite (Hlen chosen Hin).
  assert ((length (move_stack (board w)) <? 6)%nat = false) as ->
    by (apply Nat.ltb_ge; lia).
  done.
Qed.

(** X12. A repertoire without an entry for the side to move, or with an
    empty list of lines, is not survived: during the first seven plies
    [get_move] raises [KeyError], respectively [IndexError] (only
    [ValueError] is caught around the book), before any move is
    scored. *)
Theorem get_move_raises_on_missing_repertoire self w :
  (length (move_stack (board w)) <= 6)%nat ->
  let key := if bool_decide (turn (board w) = WHITE) then "white" else "black" in
  (opening_repertoire self !! key = None ->
   get_move self w = (Raise (KeyError key), snd (time_time w)))
  /\ (opening_repertoire self !! key = Some [] ->
      get_move self w = (Raise IndexError, snd (time_time w))).
Proof.
  intros Hply key.
  assert (Hguard : (6 <? length (move_stack (board w)))%nat = false)
    by (by apply Nat.ltb_ge).
  split; intros Hkey; unfold get_move, bind at 1, time_time at 1;
    unfold bind at 1, _get_opening_move, bind at 1, get_board; simpl;
    rewrite Hguard; unfold bind at 1, lift at 1, getitem; subst key;
    destruct (bool_decide (turn (board w) = WHITE)); by rewrite Hkey.
Qed.

(** ** Material *)

Lemma side_material_perm (c : Color) (l1 l2 : list (Square * Piece)) :
  l1 ≡ₚ l2 -> side_material c l1 = side_material c l2.
Proof.
  induction 1 as [|[sq p] l1 l2 _ IH|[sq1 p1] [sq2 p2] l|l1 l2 l3 _ IH1 _ IH2];
    simpl; [done|by rewrite IH|lia|congruence].
Qed.

(** X13. The material term does not depend on the order in which the
    rules library lists the pieces: two boards with the same pieces on
    the same squares get the same material, and it never exceeds nine
    points per piece in either direction. *)
Theorem material_independent_of_piece_order (b1 b2 : Board) :
  piece_map b1 ≡ₚ piece_map b2 ->
  _evaluate_material b1 = _evaluate_material b2
  /\ (- 9 * Z.of_nat (length (piece_map b1)) <= _evaluate_material b1
      <= 9 * Z.of_nat (length (piece_map b1)))%Z.
Proof.
  intros Hp. split.
  - rewrite !_evaluate_material_sides.
    by rewrite (side_material_perm WHITE _ _ Hp), (side_material_perm BLACK _ _ Hp).
  - unfold _evaluate_material.
    pose proof (material_loop_bound (piece_map b1) 0). lia.
Qed.

(** ** The clock *)

(** X14. The time budget is looked at once, after every move has been
    scored: on the scoring path the engine of [__init__] reads the clock
    exactly twice, however many moves it scores. *)
Theorem get_move_reads_clock_twice (d : Z) w om w1 :
  _get_opening_move (init d) (snd (time_time w)) = (Ok om, w1) ->
  truthy om = false ->
  legal_moves (board w) <> [] ->
  clock (snd (get_move (init d) w)) = (fun n => clock w (S (S n))).
Proof.
  intros Eo Hom Hlegal.
  destruct (get_move_scoring_path d w om w1 Eo Hom Hlegal)
    as (best & w2 & _ & Hc & ->).
  destruct (negb _); [|done].
  unfold bind.
  destruct (random_choice_run (legal_moves (board w)) w2 Hlegal)
    as (m & w' & -> & _ & _ & Hc').
  simpl. congruence.
Qed.

End EngineMore.

(** ** Runs of the further properties on concrete positions *)

Section MoreRuns.

Import MiniChess Positions.

(** X1, witness. *)
Lemma get_move_restores_position_witness :
  (forall (b : MBoard) m, pop (push b m) = b)
  /\ board (snd (get_move (init 5) (world back_rank_board 3 slow_clock)))
     = back_rank_board.
Proof.
  split; [exact m_pop_push|].
  apply (get_move_restores_position (init 5) (world back_rank_board 3 slow_clock)).
  exact m_pop_push.
Defined.


Example back_rank_non_mating_moves :
  length (filter (fun m => is_checkmate (push back_rank_board m) = false)
                 (legal_moves back_rank_board)) = 16%nat.
Proof. vm_compute. reflexivity. Qed.

(** X3, witness. *)
Lemma score_moves_scores_each_move_once_witness :
  exists scored w',
    score_moves (init 5) (legal_moves back_rank_board) []
      (world back_rank_board 3 slow_clock) = (Ok scored, w')
    /\ map snd scored = legal_moves back_rank_board
    /\ board w' = back_rank_board.
Proof.
  apply (score_moves_scores_each_move_once 5 (legal_moves back_rank_board)
           (world back_rank_board 3 slow_clock)).
  exact m_pop_push.
Defined.

(** X6, witness: difficulty 5, where the five best are shuffled. *)
Lemma get_move_returns_one_of_top_five_witness :
  exists (scored : list (Q * Move)) best w3,
    get_move (init 5) (world back_rank_board (2 ^ 52) (fun _ => 0))
    = (Ok (Some (snd best)), w3)
    /\ best ∈ take 5 (sort_desc scored)
    /\ snd best ∈ legal_moves back_rank_board.
Proof.
  eexists.
  eapply (get_move_returns_one_of_top_five (init 5)
            (world back_rank_board (2 ^ 52) (fun _ => 0))).
  - vm_compute. reflexivity.
  - reflexivity.
  - vm_compute. discriminate.
  - vm_compute. reflexivity.
  - vm_compute. discriminate.
Defined.

(** X7, witness. *)
Lemma get_move_returns_first_best_witness :
  exists (scored : list (Q * Move)) i best w3,
    get_move (init 9) (world back_rank_board 7 (fun _ => 0))
    = (Ok (Some (snd best)), w3)
    /\ scored !! i = Some best
    /\ legal_moves back_rank_board !! i = Some (snd best)
    /\ (forall j x, (j < i)%nat -> scored !! j = Some x -> fst x < fst best)
    /\ (forall x, x ∈ scored -> fst x <= fst best).
Proof.
  eexists.
  eapply (get_move_returns_first_best (init 9)
            (world back_rank_board 7 (fun _ => 0))).
  - vm_compute. discriminate.
  - vm_compute. reflexivity.
  - reflexivity.
  - vm_compute. discriminate.
  - vm_compute. reflexivity.
  - vm_compute. discriminate.
Defined.

(** X8, witness: the back-rank mate is found at difficulty 9. *)
Lemma get_move_plays_mate_in_one_witness :
  exists m w',
    get_move (init 9) (world back_rank_board 7 (fun _ => 0)) = (Ok (Some m), w')
    /\ m ∈ legal_moves back_rank_board
    /\ is_checkmate (push back_rank_board m) = true.
Proof.
  eapply (get_move_plays_mate_in_one 9 (world back_rank_board 7 (fun _ => 0))).
  - lia.
  - exact m_pop_push.
  - vm_compute. reflexivity.
  - reflexivity.
  - vm_compute. discriminate.
  - exists Ra8. split; [apply (bool_decide_unpack _)|]; vm_compute; done.
  - apply Forall_forall. apply (bool_decide_unpack _). vm_compute. exact I.
Defined.

(** X9, witness: 1. e4 from the initial position. *)
Lemma bonuses_after_push_witness :
  development_bonus (init 5) (push starting_board e2e4) e2e4 = Ok 0
  /\ queen_bonus (push starting_board e2e4) e2e4 = 0
  /\ (exists q, capture_bonus (init 5) (push starting_board e2e4) e2e4 = Ok q
                /\ (0 < q <-> piece_type (mkPiece PAWN WHITE) <> KING))
  /\ (exists q, aggression_bonus (init 5) (push starting_board e2e4) e2e4 = Ok q
                /\ (0 < q <->
                    match turn starting_board with
                    | WHITE => Nat.ltb (square_rank (to_square e2e4))
                                       (square_rank (from_square e2e4))
                    | BLACK => Nat.ltb (square_rank (from_square e2e4))
                                       (square_rank (to_square e2e4))
                    end = true)).
Proof.
  assert (H2 : piece_at (push starting_board e2e4) (from_square e2e4) = None)
    by (vm_compute; reflexivity).
  assert (H3 : piece_at (push starting_board e2e4) (to_square e2e4)
               = Some (mkPiece PAWN WHITE))
    by (vm_compute; reflexivity).
  assert (H4 : turn (push starting_board e2e4) = opposite (turn starting_board))
    by reflexivity.
  exact (bonuses_after_push 5 starting_board e2e4 (mkPiece PAWN WHITE) H2 H3 H4).
Defined.

(** X10, witness: the book move of the initial position. *)
Lemma opening_move_comes_from_repertoire_witness :
  (length (move_stack starting_board) <= 6)%nat
  /\ exists openings line san,
       getitem (opening_repertoire (init 7)) "white" = Ok openings
       /\ line ∈ openings
       /\ line !! length (move_stack starting_board) = Some san
       /\ parse_san starting_board san = Some (mkMove 12%nat 20%nat None None).
Proof.
  assert (E : _get_opening_move (init 7) (world starting_board 0 slow_clock)
              = (Ok (Some (mkMove 12%nat 20%nat None None)),
                 snd (_get_opening_move (init 7) (world starting_board 0 slow_clock))))
    by (vm_compute; reflexivity).
  exact (opening_move_comes_from_repertoire (init 7)
           (world starting_board 0 slow_clock) _ _ E).
Defined.

(** X11, witness: after six plies the book is consulted in vain. *)
Lemma opening_book_silent_from_sixth_ply_witness :
  (6 <= length (move_stack six_ply_board))%nat
  /\ fst (_get_opening_move (init 7) (world six_ply_board 0 slow_clock)) = Ok None.
Proof.
  split; [vm_compute; lia|].
  apply (opening_book_silent_from_sixth_ply 7 (world six_ply_board 0 slow_clock)).
  vm_compute. lia.
Defined.

(** X12, witness: an engine without a repertoire at the initial position. *)
Lemma get_move_raises_on_missing_repertoire_witness :
  get_move bookless_engine (world starting_board 0 slow_clock)
  = (Raise (KeyError "white"), snd (time_time (world starting_board 0 slow_clock))).
Proof.
  assert (Hply : (length (move_stack (board (world starting_board 0 slow_clock)))
                  <= 6)%nat) by (vm_compute; lia).
  exact (proj1 (get_move_raises_on_missing_repertoire bookless_engine
                  (world starting_board 0 slow_clock) Hply) eq_refl).
Defined.

Example get_move_raises_on_empty_repertoire :
  fst (get_move empty_book_engine (world starting_board 0 slow_clock))
  = Raise IndexError.
Proof. vm_compute. reflexivity. Qed.

(** X13, witness. *)
Lemma material_independent_of_piece_order_witness :
  _evaluate_material queen_up_board = _evaluate_material queen_up_board_reversed
  /\ (- 9 * Z.of_nat (length (piece_map queen_up_board))
      <= _evaluate_material queen_up_board
      <= 9 * Z.of_nat (length (piece_map queen_up_board)))%Z.
Proof.
  apply (material_independent_of_piece_order queen_up_board queen_up_board_reversed).
  simpl. symmetry. apply reverse_Permutation.
Defined.

(** X14, witness. *)
Lemma get_move_reads_clock_twice_witness :
  clock (snd (get_move (init 5) (world back_rank_board 3 slow_clock)))
  = (fun n => slow_clock (S (S n))).
Proof.
  eapply (get_move_reads_clock_twice 5 (world back_rank_board 3 slow_clock)).
  - vm_compute. reflexivity.
  - reflexivity.
  - vm_compute. discriminate.
Defined.

End MoreRuns.

(** ** Properties of the reporting script *)

Section ScriptFacts.

Import Analyze.

Implicit Types (s line : pystr) (lines run : list pystr).

(** *** Blank lines *)

Lemma lstrip_blank s : forallb is_space s = true -> lstrip s = [].
Proof.
  induction s as [|c s IH]; simpl; [done|].
  destruct (is_space c); simpl; [done|discriminate].
Qed.

Lemma lstrip_nil s : lstrip s = [] -> forallb is_space s = true.
Proof.
  induction s as [|c s IH]; simpl; [done|].
  destruct (is_space c); simpl; [done|discriminate].
Qed.

Lemma strip_blank s : is_empty_str (strip s) = forallb is_space s.
Proof.
  unfold strip. destruct (forallb is_space s) eqn:E.
  - by rewrite (lstrip_blank s E).
  - destruct (reverse (lstrip (reverse (lstrip s)))) as [|c r] eqn:Er; [|done].
    exfalso.
    apply (f_equal reverse) in Er. rewrite reverse_involutive in Er.
    change (reverse []) with (@nil N) in Er.
    apply lstrip_nil in Er.
    assert (Hl : forallb is_space (lstrip s) = true).
    { apply forallb_forall. intros c Hc.
      rewrite forallb_forall in Er. apply Er.
      apply list_elem_of_In. rewrite elem_of_reverse. by apply list_elem_of_In. }
    clear Er. induction s as [|c s IH]; simpl in *; [done|].
    destruct (is_space c) eqn:Ec; simpl in *; [by apply IH|].
    by rewrite Ec in Hl.
Qed.

Lemma blank_app s1 s2 :
  forallb is_space s1 = false -> forallb is_space (s1 ++ s2) = false.
Proof. intros E. by rewrite forallb_app, E. Qed.

Lemma join_not_blank (sep : pystr) run :
  run <> [] -> Forall (fun l => forallb is_space l = false) run ->
  forallb is_space (join sep run) = false.
Proof.
  intros Hne Hall. destruct run as [|x rest]; [done|].
  apply Forall_cons in Hall as [Hx _].
  destruct rest; simpl; [done|]. by apply blank_app.
Qed.

(** *** [split] and [join] *)

Lemma split_on_nonempty (sep : N) s : split_on sep s <> [].
Proof.
  induction s as [|c s IH]; simpl; [done|].
  destruct (c =? sep)%N; [done|]. by destruct (split_on sep s).
Qed.

Lemma split_on_free (sep : N) s :
  Forall (fun l => sep ∉ l) (split_on sep s).
Proof.
  induction s as [|c s IH]; simpl.
  - constructor; [apply not_elem_of_nil|constructor].
  - destruct (c =? sep)%N eqn:E.
    + constructor; [apply not_elem_of_nil|done].
    + apply N.eqb_neq in E.
      destruct (split_on sep s) as [|x xs].
      { repeat constructor. intros Hc. apply list_elem_of_singleton in Hc. done. }
      apply Forall_cons in IH as [Hx Hxs].
      constructor; [|done]. intros Hc. apply elem_of_cons in Hc as [Hc|Hc]; done.
Qed.

Lemma split_on_line (sep : N) s : sep ∉ s -> split_on sep s = [s].
Proof.
  induction s as [|c s IH]; intros Hs; simpl; [done|].
  apply not_elem_of_cons in Hs as [Hc Hs].
  assert ((c =? sep)%N = false) as -> by (by apply N.eqb_neq).
  by rewrite IH.
Qed.

Lemma split_on_app (sep : N) s1 s2 :
  sep ∉ s1 -> split_on sep (s1 ++ sep :: s2) = s1 :: split_on sep s2.
Proof.
  induction s1 as [|c s1 IH]; intros Hs; simpl.
  - by rewrite N.eqb_refl.
  - apply not_elem_of_cons in Hs as [Hc Hs].
    assert ((c =? sep)%N = false) as -> by (by apply N.eqb_neq).
    by rewrite IH.
Qed.

Lemma split_on_join (sep : N) (parts : list pystr) :
  parts <> [] -> Forall (fun l => sep ∉ l) parts ->
  split_on sep (join [sep] parts) = parts.
Proof.
  induction parts as [|x rest IH]; intros Hne Hall; [done|].
  apply Forall_cons in Hall as [Hx Hrest].
  destruct rest as [|y rest].
  - simpl. by apply split_on_line.
  - change (join [sep] (x :: y :: rest)) with (x ++ sep :: join [sep] (y :: rest)).
    rewrite split_on_app by done. rewrite IH; done.
Qed.

(** *** The blocks *)

(** What the loop over the lines has built when it ends: the blocks
    closed so far, and the lines of the block still open. *)
Lemma split_loop_runs lines : forall (games : list pystr) (current : list pystr),
  exists runs rest,
    split_loop lines games current = (games ++ map (join NEWLINE) runs, rest)
    /\ current ++ filter (fun l => forallb is_space l = false) lines
       = concat runs ++ rest
    /\ Forall (fun run => run <> []) runs
    /\ (current <> [] -> runs <> [] \/ rest <> []).
Proof.
  induction lines as [|line lines IH]; intros games current.
  - exists [], current. simpl. rewrite !app_nil_r. repeat split; [constructor|auto].
  - rewrite filter_cons. cbn [split_loop]. rewrite strip_blank.
    destruct (forallb is_space line) eqn:Eb.
    + rewrite decide_False by done.
      destruct current as [|c0 current].
      * destruct (IH games []) as (runs & rest & -> & Heq & Hne & _).
        exists runs, rest. repeat split; [done|done|done].
      * destruct (IH (games ++ [join NEWLINE (c0 :: current)]) [])
          as (runs & rest & -> & Heq & Hne & _).
        exists ((c0 :: current) :: runs), rest.
        split; [by rewrite <- app_assoc|]. split.
        { cbn [concat]. rewrite <- app_assoc. f_equal. exact Heq. }
        split; [by constructor|]. intros _. by left.
    + rewrite decide_True by done.
      destruct (IH games (current ++ [line])) as (runs & rest & -> & Heq & Hne & Hcur).
      exists runs, rest. split; [done|]. split.
      { rewrite <- Heq, <- app_assoc. done. }
      split; [done|]. intros _. apply Hcur. by destruct current.
Qed.

Lemma split_games_runs (pgn_content : pystr) :
  exists runs,
    split_games pgn_content = map (join NEWLINE) runs
    /\ concat runs
       = filter (fun l => forallb is_space l = false) (split_on 10 pgn_content)
    /\ Forall (fun run => run <> []) runs.
Proof.
  unfold split_games.
  destruct (split_loop_runs (split_on 10 pgn_content) [] [])
    as (runs & rest & -> & Heq & Hne & _).
  simpl in Heq. destruct rest as [|r0 rest].
  - exists runs. rewrite app_nil_r in Heq. by repeat split.
  - exists (runs ++ [r0 :: rest]). rewrite map_app. split; [done|].
    split; [|apply Forall_app; split; [done|by repeat constructor]].
    rewrite concat_app. simpl. by rewrite app_nil_r.
Qed.

Lemma runs_lines (runs : list (list pystr)) (l : list pystr) (P : pystr -> Prop) :
  concat runs = l -> Forall P l -> Forall (Forall P) runs.
Proof.
  intros <- Hall. induction runs as [|run runs IH]; [constructor|].
  simpl in Hall. apply Forall_app in Hall as [H1 H2].
  constructor; [done|by apply IH].
Qed.

(** X15. Cutting the file into blocks loses and invents nothing: the
    blocks, split into lines again as the analysis loop does, are
    non-empty groups of lines that, put end to end, are exactly the
    non-blank lines of the file in their order. *)
Theorem split_games_keeps_nonblank_lines (pgn_content : pystr) :
  concat (map (split_on 10) (split_games pgn_content))
  = filter (fun l => forallb is_space l = false) (split_on 10 pgn_content)
  /\ Forall (fun lines => lines <> []) (map (split_on 10) (split_games pgn_content)).
Proof.
  destruct (split_games_runs pgn_content) as (runs & -> & Hcat & Hne).
  assert (Hfree : Forall (Forall (fun l => 10%N ∉ l)) runs).
  { eapply runs_lines; [exact Hcat|].
    apply Forall_forall. intros l Hl. apply list_elem_of_filter in Hl as [_ Hl].
    pose proof (split_on_free 10 pgn_content) as Hf.
    rewrite Forall_forall in Hf. by apply Hf. }
  assert (Hround : map (split_on 10) (map (join NEWLINE) runs) = runs).
  { clear Hcat. induction runs as [|run runs IH]; [done|].
    apply Forall_cons in Hne as [Hr Hne]. apply Forall_cons in Hfree as [Hf Hfree].
    simpl. rewrite IH by done. f_equal. by apply split_on_join. }
  rewrite Hround. done.
Qed.

(** X16. No block is blank: every block holds a character that is not
    whitespace, so the test that skips blank blocks at the head of the
    analysis loop never applies to a block the splitting produced. *)
Theorem split_games_never_blank (pgn_content : pystr) (game_text : pystr) :
  game_text ∈ split_games pgn_content ->
  is_empty_str (strip game_text) = false.
Proof.
  destruct (split_games_runs pgn_content) as (runs & -> & Hcat & Hne).
  intros Hin. apply list_elem_of_fmap in Hin as (run & -> & Hrun).
  rewrite strip_blank. apply join_not_blank.
  - rewrite Forall_forall in Hne. by apply Hne.
  - assert (Hall : Forall (Forall (fun l => forallb is_space l = false)) runs).
    { eapply runs_lines; [exact Hcat|].
      apply Forall_forall. intros l Hl. by apply list_elem_of_filter in Hl as [Hl _]. }
    rewrite Forall_forall in Hall. by apply Hall.
Qed.

Lemma split_loop_run run : forall lines (games current : list pystr),
  Forall (fun l => forallb is_space l = false) run ->
  split_loop (run ++ lines) games current = split_loop lines games (current ++ run).
Proof.
  induction run as [|l run IH]; intros lines games current Hrun.
  - by rewrite app_nil_r.
  - apply Forall_cons in Hrun as [Hl Hrun].
    cbn [app split_loop]. rewrite strip_blank, Hl.
    rewrite IH by done. by rewrite <- app_assoc.
Qed.

Lemma split_loop_blanks (seps : list pystr) : forall lines (games : list pystr),
  Forall (fun l => forallb is_space l = true) seps ->
  split_loop (seps ++ lines) games [] = split_loop lines games [].
Proof.
  induction seps as [|l seps IH]; intros lines games Hseps; [done|].
  apply Forall_cons in Hseps as [Hl Hseps].
  cbn [app split_loop]. rewrite strip_blank, Hl. by apply IH.
Qed.

Lemma split_loop_block run (seps : list pystr) lines (games : list pystr) :
  run <> [] -> seps <> [] ->
  Forall (fun l => forallb is_space l = false) run ->
  Forall (fun l => forallb is_space l = true) seps ->
  split_loop (run ++ seps ++ lines) games []
  = split_loop lines (games ++ [join NEWLINE run]) [].
Proof.
  intros Hrun Hseps Hnb Hb.
  rewrite split_loop_run by done. rewrite app_nil_l.
  destruct seps as [|l seps]; [done|].
  apply Forall_cons in Hb as [Hl Hb].
  cbn [app split_loop]. rewrite strip_blank, Hl.
  destruct run as [|r0 run]; [done|].
  by apply split_loop_blanks.
Qed.

(** X17. A text made of blocks of non-blank lines, each followed by one
    or more blank lines, is cut into exactly these blocks, one entry
    per block.  (In a PGN export the tag section and the movetext of a
    game are separated by a blank line: they come out as two blocks.) *)
Theorem split_games_of_blocks (blocks : list (list pystr * list pystr)) :
  Forall (fun b =>
    fst b <> [] /\ snd b <> []
    /\ Forall (fun l => forallb is_space l = false /\ 10%N ∉ l) (fst b)
    /\ Forall (fun l => forallb is_space l = true /\ 10%N ∉ l) (snd b)) blocks ->
  split_games (join NEWLINE (concat (map (fun b => fst b ++ snd b) blocks)))
  = map (fun b => join NEWLINE (fst b)) blocks.
Proof.
  intros Hblocks. unfold split_games.
  destruct blocks as [|b0 blocks]; [done|].
  set (lines := concat (map (fun b => fst b ++ snd b) (b0 :: blocks))).
  assert (Hne : lines <> []).
  { apply Forall_cons in Hblocks as [(Hr & _) _].
    unfold lines. destruct b0 as [[|l0 run] seps]; simpl in *; done. }
  assert (Hfree : Forall (fun l => 10%N ∉ l) lines).
  { unfold lines. clear Hne. induction (b0 :: blocks) as [|b bs IH]; [constructor|].
    apply Forall_cons in Hblocks as [(_ & _ & H1 & H2) Hbs].
    simpl. rewrite !Forall_app. split; [split|by apply IH].
    - eapply Forall_impl; [exact H1|]. by intros l [_ ?].
    - eapply Forall_impl; [exact H2|]. by intros l [_ ?]. }
  unfold NEWLINE at 1. rewrite (split_on_join 10 lines Hne Hfree).
  assert (Hloop : forall games : list pystr,
    split_loop lines games []
    = (games ++ map (fun b => join NEWLINE (fst b)) (b0 :: blocks), [])).
  { unfold lines. clear Hne Hfree lines.
    induction (b0 :: blocks) as [|b bs IH]; intros games.
    - simpl. by rewrite app_nil_r.
    - apply Forall_cons in Hblocks as [(Hr & Hs & H1 & H2) Hbs].
      cbn [map concat]. rewrite <- app_assoc.
      rewrite split_loop_block; [|done|done| |].
      + rewrite IH by done. by rewrite <- app_assoc.
      + eapply Forall_impl; [exact H1|]. by intros l [? _].
      + eapply Forall_impl; [exact H2|]. by intros l [? _]. }
  by rewrite (Hloop []).
Qed.

(** *** The tag pair pattern *)

Lemma span_not_app (c : N) (a b : pystr) :
  c ∉ a -> span_not c (a ++ c :: b) = (a, c :: b).
Proof.
  induction a as [|x a IH]; intros Ha; simpl.
  - by rewrite N.eqb_refl.
  - apply not_elem_of_cons in Ha as [Hx Ha].
    assert ((x =? c)%N = false) as -> by (apply N.eqb_neq; congruence).
    by rewrite IH.
Qed.

Lemma span_not_inv (c : N) s (a b : pystr) :
  span_not c s = (a, b) ->
  s = a ++ b /\ c ∉ a.
Proof.
  revert a b. induction s as [|x s IH]; intros a b; simpl.
  - intros [= <- <-]. split; [done|apply not_elem_of_nil].
  - destruct (x =? c)%N eqn:E.
    + intros [= <- <-]. split; [done|apply not_elem_of_nil].
    + apply N.eqb_neq in E.
      destruct (span_not c s) as [a' b'].
      intros [= <- <-]. destruct (IH a' b' eq_refl) as [-> Ha].
      split; [done|]. apply not_elem_of_cons. split; [congruence|done].
Qed.

(** X18. The tag pair pattern reads a line back exactly when the line
    begins with a tag pair: it answers key and value if and only if the
    key is not empty and holds no space, the value holds no double
    quote, and the line starts with the bracketed key and quoted value;
    what follows on the line is ignored. *)
Theorem match_header_iff (line key value : pystr) :
  match_header line = Some (key, value)
  <-> (key <> [] /\ (32%N ∉ key) /\ (34%N ∉ value)
       /\ exists rest, line = header_line key value ++ rest).
Proof.
  split.
  - unfold match_header.
    destruct line as [|c r]; [done|].
    destruct (decide (c = 91%N)) as [->|Hc].
    2: { destruct c as [|p]; [done|]. do 7 (destruct p as [p|p|]; try done). }
    destruct (span_not 32 r) as [k r1] eqn:Ek.
    apply span_not_inv in Ek as [-> Hk].
    destruct k as [|k0 k]; [done|].
    destruct r1 as [|c1 r1]; [done|].
    destruct (decide (c1 = 32%N)) as [->|Hc1].
    2: { destruct c1 as [|p]; [done|]. do 6 (destruct p as [p|p|]; try done). }
    destruct r1 as [|c2 r2]; [done|].
    destruct (decide (c2 = 34%N)) as [->|Hc2].
    2: { destruct c2 as [|p]; [done|]. do 6 (destruct p as [p|p|]; try done). }
    destruct (span_not 34 r2) as [v r3] eqn:Ev.
    apply span_not_inv in Ev as [-> Hv].
    destruct r3 as [|c3 r3]; [done|].
    destruct (decide (c3 = 34%N)) as [->|Hc3].
    2: { destruct c3 as [|p]; [done|]. do 6 (destruct p as [p|p|]; try done). }
    destruct r3 as [|c4 r4]; [done|].
    destruct (decide (c4 = 93%N)) as [->|Hc4].
    2: { destruct c4 as [|p]; [done|]. do 7 (destruct p as [p|p|]; try done). }
    intros [= <- <-]. split; [done|]. split; [done|]. split; [done|].
    exists r4. unfold header_line. rewrite <- ?app_assoc. reflexivity.
  - intros (Hne & Hk & Hv & rest & ->).
    unfold header_line, match_header.
    change (([91%N] ++ key ++ [32%N; 34%N] ++ value ++ [34%N; 93%N]) ++ rest)
      with (91%N :: (key ++ [32%N; 34%N] ++ value ++ [34%N; 93%N]) ++ rest).
    replace ((key ++ [32%N; 34%N] ++ value ++ [34%N; 93%N]) ++ rest)
      with (key ++ 32%N :: (34%N :: value ++ 34%N :: 93%N :: rest))
      by (rewrite <- !app_assoc; done).
    rewrite (span_not_app 32 key _ Hk).
    destruct key as [|k0 key]; [done|].
    rewrite (span_not_app 34 value _ Hv). done.
Qed.

(** *** The tallies *)

Lemma count_result_step (white black result : pystr) (c : Counts) :
  let c' := count_result white black result c in
  (white_wins c <= white_wins c')%Z /\ (black_wins c <= black_wins c')%Z
  /\ (draws c <= draws c')%Z
  /\ (white_wins c' + black_wins c' + draws c'
      <= white_wins c + black_wins c + draws c + 1)%Z.
Proof.
  unfold count_result.
  repeat (match goal with |- context [str_eqb ?a ?b] => destruct (str_eqb a b) end);
    simpl; lia.
Qed.

Lemma analyze_game_step (game_text : pystr) (r : Report) :
  is_empty_str (strip game_text) = false ->
  let r' := analyze_game game_text r in
  length (time_controls r') = S (length (time_controls r))
  /\ exists white black result,
       counts r' = count_result white black result (counts r).
Proof.
  intros Hnb. unfold analyze_game. rewrite Hnb.
  destruct (read_headers (split_on 10 game_text) ∅) as [headers move_line].
  destruct (is_empty_str move_line); simpl;
    (split; [rewrite length_app; simpl; lia|eauto]).
Qed.

Lemma analyze_from_counts (games : list pystr) : forall r : Report,
  Forall (fun g => is_empty_str (strip g) = false) games ->
  let r' := foldl (fun r game_text => analyze_game game_text r) r games in
  length (time_controls r') = (length (time_controls r) + length games)%nat
  /\ (white_wins (counts r) <= white_wins (counts r'))%Z
  /\ (black_wins (counts r) <= black_wins (counts r'))%Z
  /\ (draws (counts r) <= draws (counts r'))%Z
  /\ (white_wins (counts r') + black_wins (counts r') + draws (counts r')
      <= white_wins (counts r) + black_wins (counts r) + draws (counts r)
         + Z.of_nat (length games))%Z.
Proof.
  induction games as [|g games IH]; intros r Hall.
  - simpl. repeat split; lia.
  - apply Forall_cons in Hall as [Hg Hall].
    destruct (analyze_game_step g r Hg) as (Htc & white & black & result & Hc).
    pose proof (count_result_step white black result (counts r)) as Hstep.
    rewrite <- Hc in Hstep. simpl in Hstep.
    specialize (IH (analyze_game g r) Hall). simpl in IH. simpl.
    rewrite Htc in IH. lia.
Qed.

(** X19. Every block of the file is counted at most once: the report
    holds one time control entry per block, the three counters are not
    negative, and wins, losses and draws together never exceed the
    number of blocks. *)
Theorem analyze_file_counts_each_block_once (pgn_content : pystr) :
  let r := analyze_file pgn_content in
  let n := length (split_games pgn_content) in
  length (time_controls r) = n
  /\ (0 <= white_wins (counts r))%Z /\ (0 <= black_wins (counts r))%Z
  /\ (0 <= draws (counts r))%Z
  /\ (white_wins (counts r) + black_wins (counts r) + draws (counts r)
      <= Z.of_nat n)%Z.
Proof.
  unfold analyze_file, analyze.
  assert (Hall : Forall (fun g => is_empty_str (strip g) = false)
                   (split_games pgn_content)).
  { apply Forall_forall. intros g Hg. by eapply split_games_never_blank. }
  pose proof (analyze_from_counts (split_games pgn_content) empty_report Hall) as Hc.
  simpl in Hc. simpl. lia.
Qed.

(** *** Blocks with and without headers *)

Lemma startswith_nil s : startswith s [] = true.
Proof. by destruct s. Qed.

Lemma first_line_startswith s :
  match split_on 10 s with
  | line :: _ => startswith line [91%N] = startswith s [91%N]
  | [] => False
  end.
Proof.
  destruct s as [|c s]; simpl; [done|].
  destruct (c =? 10)%N eqn:E.
  - simpl. apply N.eqb_eq in E. by subst c.
  - destruct (split_on 10 s); simpl; by rewrite !startswith_nil.
Qed.

(** X20. A block that does not begin with an opening bracket has no
    headers: it changes none of the three counters and registers the
    time control [Unknown].  (The movetext block of a PGN game is such
    a block.) *)
Theorem analyze_game_without_headers (game_text : pystr) (r : Report) :
  is_empty_str (strip game_text) = false ->
  startswith game_text (lit "[") = false ->
  counts (analyze_game game_text r) = counts r
  /\ time_controls (analyze_game game_text r) = time_controls r ++ [lit "Unknown"].
Proof.
  intros Hnb Hstart. unfold analyze_game. rewrite Hnb.
  pose proof (first_line_startswith game_text) as Hfirst.
  destruct (split_on 10 game_text) as [|line lines]; [done|].
  change [91%N] with (lit "[") in Hfirst. rewrite Hstart in Hfirst.
  cbn [read_headers]. rewrite Hfirst. cbn [andb negb].
  destruct (is_empty_str line); simpl; done.
Qed.

Lemma read_headers_only_headers (lines : list pystr) :
  forall headers : gmap pystr pystr,
  Forall (fun l => startswith l (lit "[") = true) lines ->
  snd (read_headers lines headers) = [].
Proof.
  induction lines as [|l lines IH]; intros headers Hall; [done|].
  apply Forall_cons in Hall as [Hl Hall].
  cbn [read_headers]. rewrite Hl. cbn [andb negb].
  destruct (endswith l (lit "]")); [|by apply IH].
  destruct (match_header l) as [[k v]|]; by apply IH.
Qed.

(** X21. A block in which every line begins with an opening bracket has
    no move line: it adds no opening sequence and no tactical tag.
    (The tag section of a PGN game is such a block.) *)
Theorem analyze_game_without_moves (game_text : pystr) (r : Report) :
  Forall (fun l => startswith l (lit "[") = true) (split_on 10 game_text) ->
  opening_moves (analyze_game game_text r) = opening_moves r
  /\ tactical_patterns (analyze_game game_text r) = tactical_patterns r.
Proof.
  intros Hall. unfold analyze_game.
  destruct (is_empty_str (strip game_text)); [done|].
  pose proof (read_headers_only_headers (split_on 10 game_text) ∅ Hall) as Hml.
  destruct (read_headers (split_on 10 game_text) ∅) as [headers move_line].
  simpl in Hml. subst move_line. done.
Qed.

(** *** Tactical tags *)

Lemma startswith_app s (prefix : pystr) :
  startswith s prefix = true <-> exists rest, s = prefix ++ rest.
Proof.
  revert s. induction prefix as [|a p IH]; intros s.
  - rewrite startswith_nil. split; [eauto|done].
  - destruct s as [|b r]; simpl; [split; [done|by intros [? ?]]|].
    rewrite andb_true_iff, N.eqb_eq, IH. split.
    + intros [-> [rest ->]]. eauto.
    + intros [rest [= -> ->]]. eauto.
Qed.

Lemma contains_infix (needle hay : pystr) :
  contains needle hay = true <-> exists l1 l2, hay = l1 ++ needle ++ l2.
Proof.
  induction hay as [|c hay IH]; cbn [contains].
  - rewrite orb_false_r, startswith_app. split.
    + intros [rest ->]. by exists [], rest.
    + intros (l1 & l2 & E). destruct l1; [by exists l2|done].
  - rewrite orb_true_iff, startswith_app, IH. split.
    + intros [[rest ->]|(l1 & l2 & ->)]; [by exists [], rest|by exists (c :: l1), l2].
    + intros (l1 & l2 & E). destruct l1 as [|x l1].
      * left. by exists l2.
      * right. injection E as -> ->. eauto.
Qed.

Lemma contains_app_r (a b hay : pystr) :
  contains (a ++ b) hay = true -> contains b hay = true.
Proof.
  rewrite !contains_infix. intros (l1 & l2 & ->).
  exists (l1 ++ a), l2. by rewrite <- !app_assoc.
Qed.

Lemma contains_app_l (a b hay : pystr) :
  contains (a ++ b) hay = true -> contains a hay = true.
Proof.
  rewrite !contains_infix. intros (l1 & l2 & ->).
  exists l1, (b ++ l2). by rewrite <- !app_assoc.
Qed.

(** X22. The tags of one block: no tag is given twice; [check] and
    [checkmate] exclude each other; a capture tag is only given when the
    move text holds no [+] at all, so never together with [check];
    [checkmate] is given exactly when a [#] occurs and [castling] exactly
    when [O-O] occurs (the tests for [+#] and [O-O-O] add nothing). *)
Theorem tactical_tags_facts (move_text : pystr) :
  let tags := tactical_tags move_text in
  NoDup tags
  /\ ~ (lit "check" ∈ tags /\ lit "checkmate" ∈ tags)
  /\ (forall t, t ∈ [lit "capture_knight"; lit "capture_bishop"; lit "capture_queen"] ->
        t ∈ tags -> contains (lit "+") move_text = false /\ lit "check" ∉ tags)
  /\ (lit "checkmate" ∈ tags <-> contains (lit "#") move_text = true)
  /\ (lit "castling" ∈ tags <-> contains (lit "O-O") move_text = true).
Proof.
  unfold tactical_tags.
  pose proof (contains_app_r (lit "+") (lit "#") move_text) as Hmate.
  pose proof (contains_app_l (lit "O-O") (lit "-O") move_text) as Hcastle.
  change (lit "+" ++ lit "#") with (lit "+#") in Hmate.
  change (lit "O-O" ++ lit "-O") with (lit "O-O-O") in Hcastle.
  destruct (contains (lit "Nx") move_text), (contains (lit "Bx") move_text),
    (contains (lit "Qx") move_text), (contains (lit "+") move_text),
    (contains (lit "+#") move_text), (contains (lit "#") move_text),
    (contains (lit "O-O-O") move_text), (contains (lit "O-O") move_text);
    try (specialize (Hmate eq_refl); discriminate Hmate);
    try (specialize (Hcastle eq_refl); discriminate Hcastle);
    clear Hmate Hcastle; cbn [andb orb negb app];
    (split; [apply (bool_decide_unpack _); vm_compute; exact I|]);
    (split; [apply (bool_decide_unpack _); vm_compute; exact I|]);
    (split; [|split; apply (bool_decide_unpack _); vm_compute; exact I]);
    intros t Ht Ht';
    first
      [ solve [ split; [reflexivity|apply (bool_decide_unpack _); vm_compute; exact I] ]
      | solve [ exfalso;
                match type of Ht' with
                | _ ∈ ?tags =>
                    assert (Hall : Forall (fun t' : pystr => t' ∉ tags)
                              [lit "capture_knight"; lit "capture_bishop";
                               lit "capture_queen"])
                      by (apply (bool_decide_unpack _); vm_compute; exact I);
                    rewrite Forall_forall in Hall; exact (Hall t Ht Ht')
                end ] ].
Qed.

End ScriptFacts.

(** *** Runs of the script on a small export *)

Section ScriptRuns.

Import Analyze.

Example analyze_sample :
  let r := analyze_file sample_pgn in
  opening_moves r = [lit "e4 e5 Qh5 Nc6 Bc4 Nf6"]
  /\ tactical_patterns r = [lit "capture_queen"; lit "checkmate"]
  /\ time_controls r = [lit "60+0"; lit "Unknown"]
  /\ counts r = mkCounts 1 0 0.
Proof. vm_compute. done. Qed.

(** X16, witness. *)
Lemma split_games_never_blank_witness :
  sample_movetext ∈ split_games sample_pgn
  /\ is_empty_str (strip sample_movetext) = false.
Proof.
  assert (Hin : sample_movetext ∈ split_games sample_pgn)
    by (apply (bool_decide_unpack _); vm_compute; exact I).
  split; [exact Hin|].
  exact (split_games_never_blank sample_pgn sample_movetext Hin).
Defined.

(** X17, witness: the tag section and the movetext of the one game come
    out as two blocks. *)
Lemma split_games_of_blocks_witness :
  split_games sample_pgn = [join NEWLINE sample_tags; sample_movetext].
Proof.
  apply (split_games_of_blocks sample_blocks).
  apply (bool_decide_unpack _). vm_compute. exact I.
Defined.

(** X20, witness: the movetext block. *)
Lemma analyze_game_without_headers_witness :
  counts (analyze_game sample_movetext empty_report) = counts empty_report
  /\ time_controls (analyze_game sample_movetext empty_report)
     = time_controls empty_report ++ [lit "Unknown"].
Proof.
  apply (analyze_game_without_headers sample_movetext empty_report);
    vm_compute; reflexivity.
Defined.

(** X21, witness: the tag section. *)
Lemma analyze_game_without_moves_witness :
  opening_moves (analyze_game (join NEWLINE sample_tags) empty_report)
  = opening_moves empty_report
  /\ tactical_patterns (analyze_game (join NEWLINE sample_tags) empty_report)
     = tactical_patterns empty_report.
Proof.
  apply (analyze_game_without_moves (join NEWLINE sample_tags) empty_report).
  apply (bool_decide_unpack _). vm_compute. exact I.
Defined.

End ScriptRuns.
